(** * Crawl frontier and concept extraction: a shallow embedding

    The definitions below follow [concept_extraction.py] and
    [concept_filtering.py] of the concept collection pipeline.

    Modelling conventions.
    - Python exceptions are values of [exn]; a computation that may raise
      has type [result A].
    - Python strings are Rocq strings, that is sequences of bytes.  A
      literal holding non-ASCII text stands for its UTF-8 encoding, so the
      substring test agrees with Python's.  The character classes
      ([isalpha], [isdigit], [lower], white space) are the ASCII ones and
      positions count bytes, which is what Python does on ASCII text; a
      statement that rests on a character class or on a position is made
      for ASCII text.
    - A pandas cell is either text or the missing value [NaN].  The CSV
      reader's inference of numbers and truth values is not modelled: the
      tables meant are those whose fields the reader keeps as text, and a
      statement that compares what was written with what is read back
      assumes such fields.  Where pandas raises for a file without a
      header line or a table without columns, the statements assume a
      header and a column.
    - A parsed page is a tree of elements and text nodes; a [Tag] carries
      the elements that follow it in document order, which is what
      [find_next] walks through.
    - A Python [set] is iterated in first-insertion order here; the source
      relies on no particular order. *)

From Stdlib Require Import ZArith Lia Ascii String.
From stdpp Require Import base option list strings gmap.

Set Warnings "-register-all".

(** ** Exceptions and results *)

Inductive exn : Type :=
  | AttributeError
  | IndexError
  | KeyError
  | FileNotFoundError
  | ConnectionError
  | Exception (msg : string).

Inductive result (A : Type) : Type :=
  | Ok (a : A)
  | Raise (e : exn).

Arguments Ok {A} a.
Arguments Raise {A} e.

#[global] Instance result_ret : MRet result := fun A a => Ok a.
#[global] Instance result_bind : MBind result := fun A B f m =>
  match m with
  | Ok a => f a
  | Raise e => Raise e
  end.

(** ** The Python string operations the pipeline uses *)

Module Py.

Definition code (c : ascii) : N := N_of_ascii c.

Definition isdigit_char (c : ascii) : bool :=
  (48 <=? code c)%N && (code c <=? 57)%N.

Definition isupper_char (c : ascii) : bool :=
  (65 <=? code c)%N && (code c <=? 90)%N.

Definition islower_char (c : ascii) : bool :=
  (97 <=? code c)%N && (code c <=? 122)%N.

Definition isalpha_char (c : ascii) : bool :=
  isupper_char c || islower_char c.

(** White space as [str.split()] and [str.strip()] see it. *)
Definition isspace_char (c : ascii) : bool :=
  ((9 <=? code c)%N && (code c <=? 13)%N)
  || ((28 <=? code c)%N && (code c <=? 32)%N).

Definition lower_char (c : ascii) : ascii :=
  if isupper_char c then ascii_of_N (code c + 32) else c.

Fixpoint all_chars (p : ascii → bool) (s : string) : bool :=
  match s with
  | EmptyString => true
  | String c s' => p c && all_chars p s'
  end.

Fixpoint any_char (p : ascii → bool) (s : string) : bool :=
  match s with
  | EmptyString => false
  | String c s' => p c || any_char p s'
  end.

Fixpoint lower (s : string) : string :=
  match s with
  | EmptyString => EmptyString
  | String c s' => String (lower_char c) (lower s')
  end.

(** [s.isalpha()]: at least one character and all of them letters. *)
Definition isalpha (s : string) : bool :=
  match s with
  | EmptyString => false
  | _ => all_chars isalpha_char s
  end.

(** [any(char.isdigit() for char in s)] *)
Definition any_digit (s : string) : bool := any_char isdigit_char s.

Definition len (s : string) : nat := String.length s.

(** [s.startswith(p)] *)
Fixpoint startswith (p s : string) : bool :=
  match p, s with
  | EmptyString, _ => true
  | String a p', String b s' => bool_decide (a = b) && startswith p' s'
  | String _ _, EmptyString => false
  end.

(** [s.endswith(p)] *)
Definition endswith (p s : string) : bool :=
  startswith (String.rev p) (String.rev s).

(** [s.endswith((p1, p2, ...))] *)
Definition endswith_any (ps : list string) (s : string) : bool :=
  existsb (fun p => endswith p s) ps.

(** [sub in s] *)
Fixpoint contains (sub s : string) : bool :=
  startswith sub s
  || match s with
     | EmptyString => false
     | String _ s' => contains sub s'
     end.

(** [s.strip()] *)
Fixpoint lstrip (s : string) : string :=
  match s with
  | EmptyString => EmptyString
  | String c s' => if isspace_char c then lstrip s' else s
  end.

Definition strip (s : string) : string :=
  String.rev (lstrip (String.rev (lstrip s))).

(** [s.split()]: the maximal runs of non-space characters.  [cur] holds
    the current run, reversed. *)
Fixpoint split_go (cur : string) (s : string) : list string :=
  match s with
  | EmptyString =>
      match cur with EmptyString => [] | _ => [String.rev cur] end
  | String c s' =>
      if isspace_char c
      then match cur with
           | EmptyString => split_go EmptyString s'
           | _ => String.rev cur :: split_go EmptyString s'
           end
      else split_go (String c cur) s'
  end.

Definition split (s : string) : list string := split_go EmptyString s.

(** [s.split(sep)] for a non-empty separator: cut at each occurrence of
    [sep], scanning from the left.  [skip] counts the characters of a
    separator still to be passed over. *)
Fixpoint split_sep_go (sep : string) (skip : nat) (cur : string)
    (s : string) : list string :=
  match s with
  | EmptyString => [String.rev cur]
  | String c s' =>
      match skip with
      | S k => split_sep_go sep k cur s'
      | O =>
          if startswith sep s
          then String.rev cur :: split_sep_go sep (len sep - 1) EmptyString s'
          else split_sep_go sep 0 (String c cur) s'
      end
  end.

Definition split_sep (sep s : string) : list string :=
  split_sep_go sep 0 EmptyString s.

(** [s[:n]] *)
Fixpoint take (n : nat) (s : string) : string :=
  match n, s with
  | S k, String c s' => String c (take k s')
  | _, _ => EmptyString
  end.

(** [l[i]] on a list *)
Definition index {A} (l : list A) (i : nat) : result A :=
  match l !! i with
  | Some x => Ok x
  | None => Raise IndexError
  end.

(** [d[k]] and [k in d] on a dict literal, kept as the list of its
    items in source order. *)
Fixpoint dict_get {V} (d : list (string * V)) (k : string) : option V :=
  match d with
  | [] => None
  | (k', v) :: d' =>
      match dict_get d' k with
      | Some v' => Some v'
      | None => if bool_decide (k' = k) then Some v else None
      end
  end.

End Py.

(** ** Data frames and CSV files *)

Module Pandas.

Inductive cell : Type :=
  | Str (s : string)
  | NaN.

#[global] Instance cell_eq_dec : EqDecision cell.
Proof. solve_decision. Defined.

(** Rows are positional: the i-th cell of a row belongs to the i-th
    column. *)
Record DataFrame : Type := mkFrame {
  columns : list string;
  rows : list (list cell)
}.

(** A CSV file as its header line and its records, field by field
    (quoting lets any text stand in a field). *)
Record csv_file : Type := mkCsv {
  header : list string;
  lines : list (list string)
}.

#[global] Instance csv_file_eq_dec : EqDecision csv_file.
Proof. solve_decision. Defined.

(** The field texts [read_csv] takes for a missing value by default. *)
Definition na_values : list string :=
  [""; "#N/A"; "#N/A N/A"; "#NA"; "-1.#IND"; "-1.#QNAN"; "-NaN"; "-nan";
   "1.#IND"; "1.#QNAN"; "<NA>"; "N/A"; "NA"; "NULL"; "NaN"; "None";
   "n/a"; "nan"; "null"].

Definition is_na_text (s : string) : bool := bool_decide (s ∈ na_values).

Definition parse_field (s : string) : cell :=
  if is_na_text s then NaN else Str s.

(** [to_csv] writes a missing value as the empty field. *)
Definition field_text (c : cell) : string :=
  match c with
  | Str s => s
  | NaN => ""
  end.

(** [str(x)] of a cell *)
Definition cell_str (c : cell) : string :=
  match c with
  | Str s => s
  | NaN => "nan"
  end.

Definition parse_csv (f : csv_file) : DataFrame :=
  {| columns := header f; rows := map (map parse_field) (lines f) |}.

(** [df.to_csv(path, index=False)] *)
Definition render_csv (df : DataFrame) : csv_file :=
  {| header := columns df; lines := map (map field_text) (rows df) |}.

Fixpoint col_index (c : string) (cols : list string) : option nat :=
  match cols with
  | [] => None
  | c' :: cols' =>
      if bool_decide (c' = c) then Some 0 else S <$> col_index c cols'
  end.

(** The cell of row [r] under column [c]; missing when the row has no
    such column. *)
Definition row_get (cols : list string) (r : list cell) (c : string) : cell :=
  match col_index c cols with
  | Some i => default NaN (r !! i)
  | None => NaN
  end.

Definition reindex (cols cols' : list string) (r : list cell) : list cell :=
  map (row_get cols r) cols'.

(** [pd.concat([df1, df2])]: the columns of [df1], then those of [df2]
    that [df1] lacks; absent cells are missing values. *)
Definition concat (df1 df2 : DataFrame) : DataFrame :=
  let cols :=
    columns df1
    ++ List.filter (fun c => bool_decide (c ∉ columns df1)) (columns df2) in
  {| columns := cols;
     rows := map (reindex (columns df1) cols) (rows df1)
             ++ map (reindex (columns df2) cols) (rows df2) |}.

(** [drop_duplicates] keeps the first row of each key; [seen] holds the
    keys met so far.  Two missing values count as equal. *)
Fixpoint drop_dup_go (key : list cell → list cell)
    (seen : list (list cell)) (rs : list (list cell)) : list (list cell) :=
  match rs with
  | [] => []
  | r :: rs' =>
      if bool_decide (key r ∈ seen)
      then drop_dup_go key seen rs'
      else r :: drop_dup_go key (key r :: seen) rs'
  end.

(** [df.drop_duplicates(subset=subset)] *)
Definition drop_duplicates (subset : list string) (df : DataFrame) : DataFrame :=
  {| columns := columns df;
     rows := drop_dup_go (fun r => map (row_get (columns df) r) subset)
               [] (rows df) |}.

(** [df[c]] as the list of its values *)
Definition column (c : string) (df : DataFrame) : result (list cell) :=
  match col_index c (columns df) with
  | Some i => Ok (map (fun r => default NaN (r !! i)) (rows df))
  | None => Raise KeyError
  end.

(** [df.iloc[:, 0]] *)
Definition first_column (df : DataFrame) : result (list cell) :=
  match columns df with
  | [] => Raise IndexError
  | _ :: _ => Ok (map (fun r => default NaN (r !! 0)) (rows df))
  end.

(** [df[c] = v] for a scalar [v] *)
Definition set_column (c : string) (v : cell) (df : DataFrame) : DataFrame :=
  match col_index c (columns df) with
  | Some i =>
      {| columns := columns df;
         rows := map (fun r => <[i := v]> r) (rows df) |}
  | None =>
      {| columns := columns df ++ [c];
         rows := map (fun r => reindex (columns df) (columns df) r ++ [v])
                   (rows df) |}
  end.

(** [pd.DataFrame({c: values})] *)
Definition single_column (c : string) (values : list string) : DataFrame :=
  {| columns := [c]; rows := map (fun v => [Str v]) values |}.

(** [pd.DataFrame({c1: v1, c2: v2})] for lists of equal length *)
Definition two_columns (c1 c2 : string) (v1 v2 : list string) : DataFrame :=
  {| columns := [c1; c2];
     rows := zip_with (fun a b => [Str a; Str b]) v1 v2 |}.

(** [df[condition]] where [condition] is [df[c].apply(f)] and [kept] are
    the rows for which [f] holds.  Over a frame with no rows [apply] hands
    back an empty series of the column's own type; that is no boolean
    mask, so the frame is indexed by an empty list of column labels and
    the result has no columns. *)
Definition apply_mask (df : DataFrame) (kept : list (list cell)) : DataFrame :=
  match rows df with
  | [] => {| columns := []; rows := [] |}
  | _ :: _ => {| columns := columns df; rows := kept |}
  end.

(** The files of the working directory, by path. *)
Abbreviation store := (gmap string csv_file).

(** [pd.read_csv(path)] *)
Definition read_csv (fs : store) (path : string) : result DataFrame :=
  match fs !! path with
  | Some f => Ok (parse_csv f)
  | None => Raise FileNotFoundError
  end.

(** [df.to_csv(path, index=False)] *)
Definition to_csv (path : string) (df : DataFrame) (fs : store) : store :=
  <[path := render_csv df]> fs.

(** [pd.read_csv_file]: the pandas module has no attribute of this name, so
    evaluating it raises. *)
Definition read_csv_file (fs : store) (path : string) : result DataFrame :=
  Raise AttributeError.

End Pandas.

Import Pandas.

(** ** Parsed pages *)

Module Bs4.

Inductive node : Type :=
  | Text (s : string)
  | Elem (name : string) (attrs : list (string * string))
      (children : list node).

Definition children_of (n : node) : list node :=
  match n with
  | Text _ => []
  | Elem _ _ kids => kids
  end.

(** The elements of a subtree in document order, the root first. *)
Fixpoint elements (n : node) : list node :=
  match n with
  | Text _ => []
  | Elem _ _ kids => n :: flat_map elements kids
  end.

Definition descendants (n : node) : list node :=
  flat_map elements (children_of n).

(** [tag.get_text()], also [tag.text] *)
Fixpoint get_text (n : node) : string :=
  match n with
  | Text s => s
  | Elem _ _ kids => foldr (fun k acc => get_text k +:+ acc) "" kids
  end.

(** [tag.get(key)]; of a repeated attribute the parser keeps the last. *)
Definition get (key : string) (n : node) : option string :=
  match n with
  | Text _ => None
  | Elem _ attrs _ => Py.dict_get attrs key
  end.

Definition has_name (nm : string) (n : node) : bool :=
  match n with
  | Text _ => false
  | Elem nm' _ _ => bool_decide (nm' = nm)
  end.

Definition has_id (i : string) (n : node) : bool :=
  bool_decide (get "id" n = Some i).

Definition has_class (c : string) (n : node) : bool :=
  match get "class" n with
  | Some v => bool_decide (c ∈ Py.split v)
  | None => false
  end.

(** A tag inside its document: the element and the elements that come
    after its subtree in document order. *)
Record Tag : Type := mkTag {
  tag_node : node;
  tag_after : list node
}.

(** In a document-order sequence an element is followed by its own
    descendants, then by what comes after it. *)
Fixpoint with_context (els after : list node) : list Tag :=
  match els with
  | [] => []
  | e :: rest =>
      {| tag_node := e;
         tag_after := drop (length (descendants e)) rest ++ after |}
      :: with_context rest after
  end.

Definition tag_descendants (t : Tag) : list Tag :=
  with_context (descendants (tag_node t)) (tag_after t).

Definition next_elements (t : Tag) : list node :=
  descendants (tag_node t) ++ tag_after t.

(** [tag.find_all(name)] *)
Definition find_all (nm : string) (t : Tag) : list Tag :=
  List.filter (fun d => has_name nm (tag_node d)) (tag_descendants t).

(** [tag.find(name)] *)
Definition find (nm : string) (t : Tag) : option Tag :=
  head (find_all nm t).

(** [tag.find(id=i)] *)
Definition find_id (i : string) (t : Tag) : option Tag :=
  head (List.filter (fun d => has_id i (tag_node d)) (tag_descendants t)).

(** [tag.find_next(name)] *)
Definition find_next (nm : string) (t : Tag) : option Tag :=
  head (List.filter (fun d => has_name nm (tag_node d))
          (with_context (next_elements t) [])).

(** [tag.select("#i")] *)
Definition select_id (i : string) (t : Tag) : list Tag :=
  List.filter (fun d => has_id i (tag_node d)) (tag_descendants t).

(** The elements of a subtree, each with its parent. *)
Fixpoint with_parent (p : node) (n : node) : list (node * node) :=
  match n with
  | Text _ => []
  | Elem _ _ kids => (n, p) :: flat_map (with_parent n) kids
  end.

(** [tag.select("pname.pclass > cname")] *)
Definition select_child (pname pclass cname : string) (t : Tag) : list node :=
  map fst
    (List.filter
       (fun np => has_name cname (fst np)
                  && has_name pname (snd np) && has_class pclass (snd np))
       (flat_map (with_parent (tag_node t)) (children_of (tag_node t)))).

(** [BeautifulSoup(content, 'html.parser')] of an already parsed body *)
Definition BeautifulSoup (content : list node) : Tag :=
  {| tag_node := Elem "[document]" [] content; tag_after := [] |}.

End Bs4.

Import Bs4.

(** ** concept_extraction.py *)

Module ConceptExtraction.

(** The Python values that travel through the URL lists: text, a missing
    table cell, or [None] (an anchor without [href]). *)
Inductive pyval : Type :=
  | PStr (s : string)
  | PNaN
  | PNone.

#[global] Instance pyval_eq_dec : EqDecision pyval.
Proof. solve_decision. Defined.

Definition of_cell (c : cell) : pyval :=
  match c with
  | Str s => PStr s
  | NaN => PNaN
  end.

Definition of_option (o : option string) : pyval :=
  match o with
  | Some s => PStr s
  | None => PNone
  end.

(** [str(v)] *)
Definition pystr (v : pyval) : string :=
  match v with
  | PStr s => s
  | PNaN => "nan"
  | PNone => "None"
  end.

(** *** File helpers *)

(** [df.dropna()] returns a new frame that the source discards, so missing
    names stay in the series. *)
Definition get_data_from_db (fs : store) (file_path : string)
    : result (list cell) :=
  match fs !! file_path with
  | None => Ok []
  | Some f => first_column (parse_csv f)
  end.

Definition concat_and_filter_unique_values (df1 df2 : DataFrame) : DataFrame :=
  drop_duplicates (columns df1) (concat df1 df2).

(** The second argument of [overwrite_file]: [list[str] | pd.DataFrame]. *)
Inductive contents : Type :=
  | Lines (l : list string)
  | Frame (df : DataFrame).

(** The branch [old_contents is None] of the source cannot be taken:
    [pd.read_csv] returns a frame or raises. *)
Definition overwrite_file (filename : string) (new_contents : contents)
    (file_type : string) (fs : store) : result store :=
  if bool_decide (file_type = "csv") then
    match new_contents with
    | Lines _ =>
        Raise (Exception "Use a panda dataframe for writing into a csv file")
    | Frame new_df =>
        old_contents ← read_csv fs filename;
        mret (to_csv filename
                (concat_and_filter_unique_values old_contents new_df) fs)
    end
  else Raise (Exception "invalid file_type, only csvs are accepted").

(** *** Reference names *)

Definition all_in (words caption_words : list string) : bool :=
  forallb (fun word => bool_decide (word ∈ caption_words)) words.

Fixpoint person_loop (caption_words : list string) (db : list cell)
    : result bool :=
  match db with
  | [] => Ok false
  | NaN :: _ => Raise AttributeError
  | Str name :: db' =>
      if all_in (Py.split name) caption_words then Ok true
      else person_loop caption_words db'
  end.

Definition contains_person_name (PERSON_DB : list cell) (caption : cell)
    : result bool :=
  match caption with
  | NaN => Ok false
  | Str s => person_loop (Py.split s) PERSON_DB
  end.

Fixpoint location_loop (caption_words : list string) (db : list cell) : bool :=
  match db with
  | [] => false
  | NaN :: db' => location_loop caption_words db'
  | Str location :: db' =>
      if all_in (Py.split location) caption_words then true
      else location_loop caption_words db'
  end.

Definition contains_location (LOCATION_DB : list cell) (caption : cell) : bool :=
  match caption with
  | NaN => false
  | Str s => location_loop (Py.split s) LOCATION_DB
  end.

(** *** Captioned images *)

Definition image_suffixes : list string := ["jpg"; "jpeg"; "gif"].

(** [any(char.isdigit() for char in text) or not contains_person_name(text)] *)
Definition dated_or_unnamed (PERSON_DB : list cell) (text : string)
    : result bool :=
  if Py.any_digit text then Ok true
  else named ← contains_person_name PERSON_DB (Str text); mret (negb named).

(** The loop over the figures; [caps] and [srcs] are [img_captions] and
    [img_sources]. *)
Fixpoint figure_scan (PERSON_DB : list cell) (figs : list Tag)
    (caps srcs : list string) : result (list string * list string) :=
  match figs with
  | [] => Ok (caps, srcs)
  | fig :: figs' =>
      match find "img" fig with
      | None => figure_scan PERSON_DB figs' caps srcs
      | Some img =>
          match find "figcaption" fig with
          | None => Raise AttributeError
          | Some figcaption =>
              let img_caption :=
                Py.lower (Py.strip (get_text (tag_node figcaption))) in
              let img_src := get "src" (tag_node img) in
              keep ← dated_or_unnamed PERSON_DB img_caption;
              if keep : bool then
                match img_src with
                | None => Raise AttributeError
                | Some src =>
                    if Py.endswith_any image_suffixes src
                    then figure_scan PERSON_DB figs'
                           (caps ++ [img_caption]) (srcs ++ [src])
                    else figure_scan PERSON_DB figs' caps srcs
                end
              else figure_scan PERSON_DB figs' caps srcs
          end
      end
  end.

(** The loop over all images. *)
Fixpoint image_scan (PERSON_DB : list cell) (imgs : list Tag)
    (caps srcs : list string) : result (list string * list string) :=
  match imgs with
  | [] => Ok (caps, srcs)
  | img :: imgs' =>
      let img_title := get "alt" (tag_node img) in
      match get "src" (tag_node img) with
      | None => Raise AttributeError
      | Some img_src =>
          if bool_decide (img_src ∉ srcs)
             && Py.endswith_any image_suffixes img_src
          then
            match img_title with
            | None => image_scan PERSON_DB imgs' caps srcs
            | Some alt =>
                if bool_decide (alt = "")
                then image_scan PERSON_DB imgs' caps srcs
                else
                  let img_title := Py.lower (Py.strip alt) in
                  keep ← dated_or_unnamed PERSON_DB img_title;
                  if keep : bool
                  then image_scan PERSON_DB imgs'
                         (caps ++ [img_title]) (srcs ++ [img_src])
                  else image_scan PERSON_DB imgs' caps srcs
            end
          else image_scan PERSON_DB imgs' caps srcs
      end
  end.

Definition get_captioned_images (PERSON_DB : list cell) (soup_content : Tag)
    : result DataFrame :=
  '(caps, srcs) ← figure_scan PERSON_DB (find_all "figure" soup_content) [] [];
  '(caps, srcs) ← image_scan PERSON_DB (find_all "img" soup_content) caps srcs;
  mret (two_columns "img_source" "img_captions" srcs caps).

(** *** Outbound links *)

Definition reference_ids : list (string * string) :=
  [("en", "References"); ("es", "Referencias"); ("de", "Weblinks");
   ("zh", "參考來源"); ("ko", "참고 문헌")].

(** [s.add(x)] on a set kept in insertion order *)
Definition set_add (x : string) (s : list string) : list string :=
  if bool_decide (x ∈ s) then s else s ++ [x].

(** [href and href.startswith("/wiki/") and ':' not in href and
    "(identifier)" not in href]: the href when the test holds. *)
Definition internal_content_link (href : option string) : option string :=
  match href with
  | None => None
  | Some h =>
      if negb (bool_decide (h = "")) && Py.startswith "/wiki/" h
         && negb (Py.contains ":" h) && negb (Py.contains "(identifier)" h)
      then Some h else None
  end.

(** [reference_section and href == reference_section.find_next("a").get("href")] *)
Definition at_cutoff (reference_section : option Tag) (href : option string)
    : result bool :=
  match reference_section with
  | None => Ok false
  | Some section =>
      match find_next "a" section with
      | None => Raise AttributeError
      | Some a => Ok (bool_decide (href = get "href" (tag_node a)))
      end
  end.

(** The loop over the anchors; [break] returns what was collected. *)
Fixpoint link_loop (reference_section : option Tag) (links : list Tag)
    (scraped_urls url_concepts : list string)
    : result (list string * list string) :=
  match links with
  | [] => Ok (scraped_urls, url_concepts)
  | link :: links' =>
      let concept_title := get "title" (tag_node link) in
      let href := get "href" (tag_node link) in
      stop ← at_cutoff reference_section href;
      if stop : bool then Ok (scraped_urls, url_concepts)
      else
        match internal_content_link href with
        | Some h =>
            match concept_title with
            | None => Raise AttributeError
            | Some title =>
                link_loop reference_section links' (set_add h scraped_urls)
                  (if Py.isalpha title && bool_decide (1 < Py.len title)
                   then set_add (Py.lower title) url_concepts
                   else url_concepts)
            end
        | None => link_loop reference_section links' scraped_urls url_concepts
        end
  end.

Definition extract_link_concepts_and_urls (soup_content : Tag)
    (current_url : string) : result (DataFrame * DataFrame) :=
  after_scheme ← Py.index (Py.split_sep "//" current_url) 1;
  let language_code := Py.take 2 after_scheme in
  match Py.dict_get reference_ids language_code with
  | None => Ok (single_column "urls" [], single_column "concepts" [])
  | Some id =>
      let reference_section := find_id id soup_content in
      let outgoing_links := find_all "a" soup_content in
      '(scraped_urls, url_concepts) ←
        link_loop reference_section outgoing_links [] [];
      mret (single_column "urls" scraped_urls,
            single_column "concepts" url_concepts)
  end.

(** *** Default culture and semantic field *)

Definition CULTURES : list (string * string) :=
  [("german", "german"); ("germany", "german"); ("spanish", "spanish");
   ("spain", "spanish"); ("chinese", "chinese"); ("china", "chinese");
   ("korean", "korean"); ("korea", "korean"); ("deutsch", "german");
   ("deutschland", "german"); ("spanisch", "spanish");
   ("spanien", "spanish"); ("chinesisch", "chinese"); ("china", "chinese");
   ("koreanisch", "korean"); ("korea", "korean"); ("alemán", "german");
   ("alemania", "german"); ("español", "spanish"); ("españa", "spanish");
   ("chino", "chinese"); ("china", "chinese"); ("coreano", "korean");
   ("德语", "german"); ("德国", "german"); ("西班牙", "spanish"); ("中文", "chinese");
   ("中国", "chinese"); ("汉语", "chinese"); ("韩语", "korean"); ("韩国", "korean");
   ("andalusia", "spanish"); ("aragon", "spanish"); ("asturias", "spanish");
   ("balearic islands", "spanish"); ("basque country", "spanish");
   ("canary islands", "spanish"); ("cantabria", "spanish");
   ("castile and león", "spanish"); ("castilla-la mancha", "spanish");
   ("catalonia", "spanish"); ("extremadura", "spanish");
   ("galicia", "spanish"); ("la rioja", "spanish"); ("madrid", "spanish");
   ("murcia", "spanish"); ("navarre", "spanish");
   ("baden-württemberg", "german"); ("bavaria", "german");
   ("berlin", "german"); ("brandenburg", "german"); ("bremen", "german");
   ("hamburg", "german"); ("hesse", "german"); ("lower saxony", "german");
   ("mecklenburg-vorpommern", "german");
   ("north rhine-westphalia", "german"); ("rhineland-palatinate", "german");
   ("saarland", "german"); ("saxony", "german"); ("saxony-anhalt", "german");
   ("schleswig-holstein", "german"); ("thuringia", "german");
   ("hebei", "chinese"); ("shanxi", "chinese"); ("liaoning", "chinese");
   ("jilin", "chinese"); ("heilongjiang", "chinese"); ("jiangsu", "chinese");
   ("zhejiang", "chinese"); ("anhui", "chinese"); ("fujian", "chinese");
   ("jiangxi", "chinese"); ("shangdong", "chinese"); ("henan", "chinese");
   ("hunan", "chinese"); ("guangdong", "chinese"); ("hainan", "chinese");
   ("sichuan", "chinese"); ("guizhuo", "chinese"); ("yunnan", "chinese");
   ("shanxi", "chinese"); ("gansu", "chinese"); ("qinghai", "chinese");
   ("chungcheong", "korean"); ("gangwon", "korean"); ("gyeonggi", "korean");
   ("gyeongsang", "korean"); ("jeonbuk", "korean"); ("jeolla", "korean");
   ("jeju", "korean")].

Definition SEMANTIC_FIELDS : list (string * string) :=
  [("beverage", "beverages"); ("alcohol", "beverages");
   ("beer", "beverages"); ("wine", "beverages");
   ("celebration", "celebration"); ("dish", "food"); ("cuisine", "food");
   ("food", "food"); ("clothing", "clothing"); ("fruit", "fruit");
   ("houses", "houses"); ("instrument", "music"); ("religion", "religion");
   ("sport", "sport"); ("utensil", "utensil"); ("tool", "utensil");
   ("vegetable", "vegetable"); ("visual arts", "visual arts");
   ("getränk", "beverages"); ("feier", "celebration"); ("essen", "food");
   ("kleidung", "clothing"); ("obst", "fruit"); ("haus", "houses");
   ("häuser", "houses"); ("werkzeug", "utensil"); ("gemüse", "vegetable");
   ("bildende kunst", "visual arts"); ("bebida", "beverages");
   ("celebración", "celebration"); ("cocina", "food"); ("comida", "food");
   ("ropa", "clothing"); ("fruta", "fruit"); ("casa", "houses");
   ("instrumento", "music"); ("religión", "religion"); ("deporte", "sport");
   ("utensilio", "utensil"); ("herramienta", "utensil");
   ("verdura", "vegetable"); ("artes visuales", "visual arts");
   ("饮料", "beverages"); ("庆祝", "celebration"); ("食物", "food");
   ("衣服", "clothing"); ("水果", "fruit"); ("房子", "houses"); ("乐器", "music");
   ("宗教", "religion"); ("运动", "sport"); ("器具", "utensil"); ("工具", "utensil");
   ("蔬菜", "vegetable"); ("视觉艺术", "visual arts"); ("음료", "beverages");
   ("축하 ", "celebration"); ("축하 ", "food"); ("옷", "clothing");
   ("과일", "fruit"); ("집", "houses"); ("악기", "music"); ("종교", "religion");
   ("스포츠", "sport"); ("도구", "utensil"); ("도구", "utensil");
   ("채소", "vegetable"); ("시각 예술", "visual arts")].

(** [for keyword in d.keys(): if keyword in text: value = d[keyword]; break],
    starting from the empty string.  [rest] is what is left of the keys. *)
Fixpoint first_keyword (d rest : list (string * string)) (text : string)
    : string :=
  match rest with
  | [] => ""
  | (keyword, _) :: rest' =>
      if Py.contains keyword text then default "" (Py.dict_get d keyword)
      else first_keyword d rest' text
  end.

Definition get_default_culture_and_semantic_field (title : string)
    : string * string :=
  (first_keyword CULTURES CULTURES title,
   first_keyword SEMANTIC_FIELDS SEMANTIC_FIELDS title).

(** *** The frontier *)

Definition culture_languages : list (string * string) :=
  [("korean", "ko"); ("chinese", "zh"); ("spanish", "es"); ("german", "de")].

(** [lang_dict[lang]] where [lang_dict] was filled pair by pair: the last
    pair with that key holds. *)
Fixpoint lang_get (pairs : list (option string * option string))
    (lang : option string) : option (option string) :=
  match pairs with
  | [] => None
  | (l, h) :: pairs' =>
      match lang_get pairs' lang with
      | Some h' => Some h'
      | None => if bool_decide (l = lang) then Some h else None
      end
  end.

(** The list [next_urls] is updated in place by the source; here the
    updated list is returned.  [soup] is the module-level variable that the
    crawl loop sets before the call. *)
Definition append_multilingual_url (soup : Tag) (default_culture : string)
    (next_urls visited_urls : list pyval) : list pyval :=
  let lang_dict :=
    map (fun a => (get "lang" a, get "href" a))
      (select_child "li" "interlanguage-link" "a" soup) in
  match Py.dict_get culture_languages default_culture with
  | None => next_urls
  | Some code =>
      match lang_get lang_dict (Some code) with
      | None => next_urls
      | Some new_link =>
          if bool_decide (of_option new_link ∉ visited_urls)
          then next_urls ++ [of_option new_link]
          else next_urls
      end
  end.

Definition START_URLS_FILE : string := "data/start_urls.csv".
Definition VISITED_URLS_FILE : string := "output/visited_urls.csv".
Definition ALL_URLS_FILE : string := "output/all_urls.csv".
Definition CONCEPT_FILE : string := "output/concept_candidates.csv".
Definition IMAGES_FILE : string := "output/images.csv".
Definition ITERATIONS : nat := Z.to_nat 15000.

Definition base_url : string := "https://en.wikipedia.org/".

(** The body of [select_next_urls_to_jump_to] over the function that loads
    the overflow table; [visited_urls] is the module-level list. *)
Definition select_next_urls_with
    (load : store → string → result DataFrame)
    (visited_urls : list pyval) (fs : store) : result (list pyval * store) :=
  url_df ← load fs ALL_URLS_FILE;
  urls ← column "urls" url_df;
  let new_urls := take 100 urls in
  next_urls ←
    match visited_urls with
    | _ :: _ =>
        Ok (map PStr
              (List.filter (fun u => bool_decide (PStr u ∉ visited_urls))
                 (map (fun url => base_url +:+ cell_str url) new_urls)))
    | [] =>
        mapM (fun url =>
                match url with
                | NaN => Raise AttributeError
                | Str u =>
                    Ok (PStr (if negb (Py.startswith "https://" u)
                              then base_url +:+ u else u))
                end) new_urls
    end;
  mret (next_urls,
        to_csv ALL_URLS_FILE
          {| columns := ["urls"]; rows := map (fun c => [c]) (drop 100 urls) |}
          fs).

(** The source loads the table with [pd.read_csv_file]. *)
Definition select_next_urls_to_jump_to
    : list pyval → store → result (list pyval * store) :=
  select_next_urls_with read_csv_file.

(** *** The crawl loop *)

(** What [requests.get] hands back: a status code and a body, taken here
    as already parsed. *)
Record Response : Type := mkResponse {
  status_code : Z;
  content : list node
}.

Inductive fetch_outcome : Type :=
  | Fetched (response : Response)
  | FetchRaises (e : exn).

(** [bool(response)]: the status is not a client or server error. *)
Definition response_ok (response : Response) : bool :=
  negb ((400 <=? status_code response)%Z && (status_code response <? 600)%Z).

Record crawl_state : Type := mkState {
  next_urls : list pyval;
  visited_urls : list pyval;
  files : store
}.

(** [outgoing_links[~outgoing_links["urls"].isin(visited_urls)]] *)
Definition not_visited_rows (visited_urls : list pyval) (df : DataFrame)
    : DataFrame :=
  {| columns := columns df;
     rows := List.filter
               (fun r => bool_decide
                           (of_cell (row_get (columns df) r "urls")
                            ∉ visited_urls))
               (rows df) |}.

Section Crawl.

(** The web: what a GET of an address yields. *)
Variable requests_get : string → fetch_outcome.

(** [random.shuffle]: some rearrangement of the list. *)
Variable shuffle : list pyval → list pyval.

(** Lines 378 to 382 of the loop body: the concept table of a page, from
    the parsed page, its body, the concepts of its links and its default
    labels.  How pandas treats the repeated row labels left by the
    concatenation is outside this model, so the table is a parameter. *)
Variable page_concepts :
  Tag → option Tag → DataFrame → string → string → result DataFrame.

(** The table loader used by the refill. *)
Variable load_overflow : store → string → result DataFrame.

Variable PERSON_DB : list cell.

(** Lines 346 to 351. *)
Definition initial_state (fs : store) : result crawl_state :=
  df_next_urls ← read_csv fs START_URLS_FILE;
  urls ← column "urls" df_next_urls;
  let next_urls := shuffle (map of_cell (take 200 urls)) in
  let empty_df := {| columns := columns df_next_urls; rows := [] |} in
  mret {| next_urls := next_urls;
          visited_urls := [];
          files := to_csv ALL_URLS_FILE empty_df fs |}.

(** Lines 354 and 355: fetch the head of the queue, then record it as
    visited. *)
Definition fetch_and_mark (st : crawl_state) : result (Response * crawl_state) :=
  url ← Py.index (next_urls st) 0;
  match requests_get (pystr url) with
  | FetchRaises e => Raise e
  | Fetched response =>
      Ok (response,
          {| next_urls := next_urls st;
             visited_urls := visited_urls st ++ [url];
             files := files st |})
  end.

(** Lines 358 to 362: the parsed page, its body and its default labels. *)
Definition page_defaults (response : Response)
    : result (Tag * option Tag * string * string) :=
  let soup := BeautifulSoup (content response) in
  let soup_content := find_id "bodyContent" soup in
  heading ← Py.index (select_id "firstHeading" soup) 0;
  let title := Py.lower (get_text (tag_node heading)) in
  let '(default_culture, default_semantic_field) :=
    get_default_culture_and_semantic_field title in
  mret (soup, soup_content, default_culture, default_semantic_field).

(** Lines 365 to 384: extraction and persistence for one page. *)
Definition extract_and_persist (soup : Tag) (soup_content : option Tag)
    (default_culture default_semantic_field : string)
    (st : crawl_state) : result store :=
  body ← match soup_content with
         | Some body => Ok body
         | None => Raise AttributeError
         end;
  page_images ← get_captioned_images PERSON_DB body;
  let page_images :=
    set_column "semantic_field" (Str default_semantic_field)
      (set_column "culture" (Str default_culture) page_images) in
  fs ← overwrite_file IMAGES_FILE (Frame page_images) "csv" (files st);
  current ← Py.index (next_urls st) 0;
  current_url ← match current with
                | PStr u => Ok u
                | _ => Raise AttributeError
                end;
  '(outgoing_links, url_concepts) ←
    extract_link_concepts_and_urls body current_url;
  let page_outgoing_urls := not_visited_rows (visited_urls st) outgoing_links in
  fs ← overwrite_file ALL_URLS_FILE (Frame page_outgoing_urls) "csv" fs;
  concepts_culture ←
    page_concepts soup soup_content url_concepts
      default_culture default_semantic_field;
  overwrite_file CONCEPT_FILE (Frame concepts_culture) "csv" fs.

(** Lines 357 to 384. *)
Definition process_response (response : Response) (st : crawl_state)
    : result crawl_state :=
  if response_ok response then
    '(soup, soup_content, default_culture, default_semantic_field) ←
      page_defaults response;
    let st := {| next_urls :=
                   append_multilingual_url soup default_culture
                     (next_urls st) (visited_urls st);
                 visited_urls := visited_urls st;
                 files := files st |} in
    fs ← extract_and_persist soup soup_content
           default_culture default_semantic_field st;
    mret {| next_urls := next_urls st;
            visited_urls := visited_urls st;
            files := fs |}
  else Ok st.

(** Lines 386 to 389: drop the head; refill when nothing is left. *)
Definition advance (st : crawl_state) : result crawl_state :=
  match drop 1 (next_urls st) with
  | [] =>
      '(next_urls, fs) ←
        select_next_urls_with load_overflow (visited_urls st) (files st);
      mret {| next_urls := next_urls;
              visited_urls := visited_urls st;
              files := fs |}
  | rest =>
      Ok {| next_urls := rest;
            visited_urls := visited_urls st;
            files := files st |}
  end.

(** One pass through the body of the [for] loop. *)
Definition crawl_iteration (st : crawl_state) : result crawl_state :=
  '(response, st) ← fetch_and_mark st;
  st ← process_response response st;
  advance st.

(** [for i in range(n)] *)
Fixpoint crawl_loop (n : nat) (st : crawl_state) : result crawl_state :=
  match n with
  | O => Ok st
  | S k => st' ← crawl_iteration st; crawl_loop k st'
  end.

Definition crawl (fs : store) : result crawl_state :=
  st ← initial_state fs;
  crawl_loop ITERATIONS st.

End Crawl.

(** The module body: the reference names are loaded (lines 318 and 319),
    then the crawl runs.  [load] is the table loader of the refill. *)
Definition run (load : store → string → result DataFrame)
    (requests_get : string → fetch_outcome)
    (shuffle : list pyval → list pyval)
    (page_concepts :
       Tag → option Tag → DataFrame → string → string → result DataFrame)
    (fs : store) : result crawl_state :=
  LOCATION_DB ← get_data_from_db fs "data/GeoNames_DB.csv";
  PERSON_DB ← get_data_from_db fs "data/name_db.csv";
  crawl requests_get shuffle page_concepts load PERSON_DB fs.

(** The script as it stands. *)
Definition main
    : (string → fetch_outcome) → (list pyval → list pyval)
      → (Tag → option Tag → DataFrame → string → string → result DataFrame)
      → store → result crawl_state :=
  run read_csv_file.

(** *** Functions outside the crawl loop *)


(** The loop of [get_all_italic_words]: one [<i>] element. *)
Definition add_italic (italic_words : list string) (tag : Tag) : list string :=
  let italic_phrase := Py.strip (get_text (tag_node tag)) in
  if Py.isalpha italic_phrase && bool_decide (1 < Py.len italic_phrase)
  then set_add (Py.lower italic_phrase) italic_words
  else italic_words.

Definition get_all_italic_words (soup_content : Tag) : DataFrame :=
  single_column "concepts"
    (foldl add_italic [] (find_all "i" soup_content)).

End ConceptExtraction.

(** ** concept_filtering.py *)

Module ConceptFiltering.

(** The inner loop [for subname in name_words]. *)
Definition any_in (words caption_words : list string) : bool :=
  existsb (fun subname => bool_decide (subname ∈ caption_words)) words.

Fixpoint person_loop (caption_words : list string) (db : list cell)
    : result bool :=
  match db with
  | [] => Ok false
  | NaN :: _ => Raise AttributeError
  | Str name :: db' =>
      if any_in (Py.split name) caption_words then Ok true
      else person_loop caption_words db'
  end.

Definition contains_person_name (PERSON_DB : list cell) (caption : cell)
    : result bool :=
  match caption with
  | NaN => Ok false
  | Str s => person_loop (Py.split s) PERSON_DB
  end.

(** [get_data_from_db] and [contains_location] have the same text as in
    concept_extraction.py. *)
Definition get_data_from_db : store → string → result (list cell) :=
  ConceptExtraction.get_data_from_db.

Definition contains_location : list cell → cell → bool :=
  ConceptExtraction.contains_location.

(** The rows whose concept is not taken for a person, in order; the test
    may raise. *)
Fixpoint keep_unnamed (PERSON_DB : list cell) (cols : list string)
    (rs : list (list cell)) : result (list (list cell)) :=
  match rs with
  | [] => Ok []
  | r :: rs' =>
      named ← contains_person_name PERSON_DB (row_get cols r "concepts");
      kept ← keep_unnamed PERSON_DB cols rs';
      mret (if named : bool then kept else r :: kept)
  end.

(** Only persons are tested at this stage. *)
Definition remove_people_and_locations_from_concepts
    (PERSON_DB : list cell) (concepts : DataFrame) : result DataFrame :=
  _ ← column "concepts" concepts;
  kept ← keep_unnamed PERSON_DB (columns concepts) (rows concepts);
  mret (apply_mask concepts kept).

Definition CONCEPT_FILE : string := "output/concept_candidates.csv".
Definition FILTERED_FILE : string := "output/concepts_filtered.csv".

(** Lines 246 to 256 of the script, reached once the client of line 65
    has been built: load the reference names, keep the first row of each
    concept text, drop the persons. *)
Definition filtered_concepts (fs : store) : result DataFrame :=
  LOCATION_DB ← get_data_from_db fs "data/GeoNames_DB.csv";
  PERSON_DB ← get_data_from_db fs "data/name_db.csv";
  df_concepts ← read_csv fs CONCEPT_FILE;
  _ ← column "concepts" df_concepts;
  let df_cleaned := drop_duplicates ["concepts"] df_concepts in
  remove_people_and_locations_from_concepts PERSON_DB df_cleaned.

(** Line 257 *)
Definition filter_concepts (fs : store) : result store :=
  filtered_concepts ← filtered_concepts fs;
  mret (to_csv FILTERED_FILE filtered_concepts fs).

(** *** Text files

    [cleanup_format] reads and writes text.  A text file is its contents;
    the line end written is the one of a POSIX system. *)

Definition LF : ascii := "010"%char.




(** [s[n:]] *)
Fixpoint drop_chars (n : nat) (s : string) : string :=
  match n, s with
  | S k, String _ s' => drop_chars k s'
  | _, _ => s
  end.

(** [s[i:-j]] for [j] above zero *)
Definition slice_to_end (i j : nat) (s : string) : string :=
  drop_chars i (Py.take (Py.len s - j) s).

(** The body of the loop of [cleanup_format]: what is written for a line. *)
Definition clean_line (line : string) : result string :=
  let line := Py.lower line in
  match line with
  | EmptyString => Raise IndexError
  | String c _ =>
      if bool_decide (c = "{"%char)
      then Ok (slice_to_end 10 2 line +:+ String LF EmptyString)
      else Ok (slice_to_end 0 2 line +:+ String LF EmptyString)
  end.


(** [create_empty_csv(filepath)] *)
Definition create_empty_csv (filepath : string) (fs : store) : store :=
  match fs !! filepath with
  | None =>
      to_csv filepath
        {| columns := ["concept"; "country"; "semantic_field"; "language"];
           rows := [] |} fs
  | Some _ => fs
  end.

(** [row.iloc[i]] of a row of a frame with columns [cols] *)
Definition iloc (cols : list string) (r : list cell) (i : nat) : result cell :=
  if bool_decide (i < length cols) then Ok (default NaN (r !! i))
  else Raise IndexError.

(** [pd.notna(x) and x.strip() != ""] *)
Definition labelled (x : cell) : bool :=
  match x with
  | Str s => negb (bool_decide (Py.strip s = ""))
  | NaN => false
  end.

(** [pd.notna(x) and x.strip() == "indian"] *)
Definition is_indian (x : cell) : bool :=
  match x with
  | Str s => bool_decide (Py.strip s = "indian")
  | NaN => false
  end.

Inductive preassignment : Type :=
  | Skipped
  | Double
  | Single
  | Noisy.

(** The branches of the loop of [seperate_preassigned_concepts]; the
    third column is looked at only where the source evaluates it. *)
Definition preassigned (cols : list string) (r : list cell)
    : result preassignment :=
  culture ← iloc cols r 1;
  if is_indian culture then Ok Skipped
  else
    field ← iloc cols r 2;
    mret (if labelled culture
          then (if labelled field then Double else Single)
          else (if labelled field then Single else Noisy)).

(** The three lists the loop fills. *)
Fixpoint separate_rows (cols : list string) (rs : list (list cell))
    : result (list (list cell) * list (list cell) * list (list cell)) :=
  match rs with
  | [] => Ok ([], [], [])
  | r :: rs' =>
      kind ← preassigned cols r;
      '(double, single, noisy) ← separate_rows cols rs';
      let row := reindex cols cols r in
      mret match kind with
           | Skipped => (double, single, noisy)
           | Double => (row :: double, single, noisy)
           | Single => (double, row :: single, noisy)
           | Noisy => (double, single, row :: noisy)
           end
  end.

Definition seperate_preassigned_concepts (concepts : DataFrame) (fs : store)
    : result store :=
  '(double, single, noisy) ← separate_rows (columns concepts) (rows concepts);
  let frame := fun rs => {| columns := columns concepts; rows := rs |} in
  mret (to_csv "output/noisy_concepts.csv" (frame noisy)
          (to_csv "output/gold_eval.csv" (frame double)
             (to_csv "output/candidates.csv" (frame single) fs))).

Definition cultures : list string :=
  ["germany"; "south korea"; "china"; "spain"].

Definition semantic_fields : list string :=
  ["beverages"; "celebration"; "food"; "clothing"; "fruit"; "houses";
   "music"; "religion"; "sport"; "utensil"; "vegetable"; "visual arts"].

(** The language names in the order of the [if] chain. *)
Definition languages : list string :=
  ["german"; "korean"; "chinese"; "spanish"; "english"].

(** [x.lower() if isinstance(x, str) else str(x)] *)
Definition lower_or_str (x : cell) : cell :=
  match x with
  | Str s => Str (Py.lower s)
  | NaN => Str "nan"
  end.

(** [row[c]] *)
Definition row_item (cols : list string) (r : list cell) (c : string)
    : result cell :=
  match col_index c cols with
  | Some i => Ok (default NaN (r !! i))
  | None => Raise KeyError
  end.

(** The [if] chain on the language: the first name that holds the row's
    language as a substring. *)
Definition canonical_language (language : string) : option string :=
  List.find (fun name => Py.contains language name) languages.

(** One row of the loop of [seperate_incorrect_gpt_assignments]: whether
    the row goes to the gold list, and the row as it is stored. *)
Definition assign_language (cols : list string) (row : list cell)
    : result (bool * list cell) :=
  country ← row_item cols row "country";
  if bool_decide (country ∈ map Str cultures) then
    field ← row_item cols row "semantic_field";
    if bool_decide (field ∈ map Str semantic_fields) then
      language ← row_item cols row "language";
      mret match canonical_language (cell_str language) with
           | Some name =>
               (true,
                match col_index "language" cols with
                | Some i => <[i := Str name]> row
                | None => row
                end)
           | None => (false, row)
           end
    else Ok (false, row)
  else Ok (false, row).

Fixpoint assign_languages (cols : list string) (rs : list (list cell))
    : result (list (list cell) * list (list cell)) :=
  match rs with
  | [] => Ok ([], [])
  | r :: rs' =>
      '(is_gold, row) ← assign_language cols r;
      '(gold, general) ← assign_languages cols rs';
      mret (if is_gold : bool then (row :: gold, general)
            else (gold, row :: general))
  end.

(** [concepts.applymap(...)]: every cell of the table, a missing one too. *)
Definition lowered (concepts : DataFrame) : list (list cell) :=
  map (fun r => map lower_or_str (reindex (columns concepts) (columns concepts) r))
    (rows concepts).

Definition seperate_incorrect_gpt_assignments (concepts : DataFrame)
    (fs : store) : result store :=
  '(gold, general) ← assign_languages (columns concepts) (lowered concepts);
  mret (to_csv "output/general.csv"
          {| columns := columns concepts; rows := general |}
          (to_csv "output/gold_candidates.csv"
             {| columns := columns concepts; rows := gold |} fs)).

End ConceptFiltering.

Import ConceptExtraction.

(** ** Predicates used in the statements *)

(** A cell that [read_csv] gives back as it was written: a missing value,
    or text that is not taken for a missing value. *)
Definition reads_back (c : cell) : bool :=
  match c with
  | Str s => negb (is_na_text s)
  | NaN => true
  end.

Definition frame_reads_back (df : DataFrame) : bool :=
  forallb (forallb reads_back) (rows df).


Definition concept_schema : list string :=
  ["concepts"; "culture"; "semantic_field"].

(** The rows of a frame that carry a given concept text. *)
Definition rows_of_concept (c : string) (df : DataFrame) : list (list cell) :=
  List.filter
    (fun r => bool_decide (row_get (columns df) r "concepts" = Str c))
    (rows df).

(** The rows that [concat_and_filter_unique_values] keeps when the new
    frame brings no column of its own. *)
Definition merged_rows (old new : DataFrame) : list (list cell) :=
  drop_dup_go (reindex (columns old) (columns old)) []
    (map (reindex (columns old) (columns old)) (rows old)
     ++ map (reindex (columns new) (columns old)) (rows new)).


(** *** Sample tables *)




Definition sakura_unlabelled : DataFrame :=
  mkFrame concept_schema [[Str "sakura"; Str ""; Str ""]].

Definition sakura_german_store : store :=
  {[ CONCEPT_FILE := mkCsv concept_schema [["sakura"; "german"; "food"]] ]}.

Definition sakura_german : DataFrame :=
  mkFrame concept_schema [[Str "sakura"; Str "german"; Str "food"]].

Definition sakura_chinese : DataFrame :=
  mkFrame concept_schema [[Str "sakura"; Str "chinese"; Str "food"]].

Definition sakura_unlabelled_store : store :=
  {[ CONCEPT_FILE := mkCsv concept_schema [["sakura"; ""; ""]] ]}.

(** The stored file after one merge. *)
Definition stored_after (filename : string) (new_rows : DataFrame) (fs : store)
    : result (option csv_file) :=
  fs1 ← overwrite_file filename (Frame new_rows) "csv" fs;
  mret (fs1 !! filename).

(** *** Sample pages *)

(** A body with one figure that holds an image and no caption element. *)
Definition uncaptioned_figure_body : Tag :=
  BeautifulSoup
    [Elem "figure" []
       [Elem "img" [("src", "//upload.example/Hanami.jpg")] []]].

(** A body with one image, outside any figure, that has no [src]. *)
Definition sourceless_image_body : Tag :=
  BeautifulSoup [Elem "p" [] [Elem "img" [("alt", "cherry blossom")] []]].

Definition japan_url : string := "https://en.wikipedia.org/wiki/Japan".

(** A body whose only link is an internal content link without a [title]. *)
Definition untitled_link_body : Tag :=
  BeautifulSoup
    [Elem "p" [] [Elem "a" [("href", "/wiki/Sake")] [Text "sake"]]].

(** Two internal links, one with an alphabetic title and one without,
    then the reference section and two links after its heading. *)
Definition titled_links_body : Tag :=
  BeautifulSoup
    [Elem "p" []
       [Elem "a" [("href", "/wiki/Sake"); ("title", "Sake")] [Text "sake"];
        Elem "a" [("href", "/wiki/Sake_(drink)"); ("title", "Sake (drink)")]
          [Text "rice wine"]];
     Elem "h2" [("id", "References")] [Text "References"];
     Elem "ol" []
       [Elem "a" [("href", "/wiki/Rice"); ("title", "Rice")] [Text "rice"];
        Elem "a" [("href", "/wiki/Koji"); ("title", "Koji")] [Text "koji"]]].

(** The visited list and the active queue share no address. *)
Definition frontier_disjoint (st : crawl_state) : Prop :=
  ∀ u, u ∈ visited_urls st → u ∉ next_urls st.

(** *** Sample runs *)

Definition sake_url : string := "https://en.wikipedia.org/wiki/Sake".

(** A web on which no connection can be made. *)
Definition offline (url : string) : fetch_outcome :=
  FetchRaises ConnectionError.

(** A web that answers every request with status 404. *)
Definition all_missing (url : string) : fetch_outcome :=
  Fetched (mkResponse 404 []).

(** A concept stage that finds nothing. *)
Definition no_concepts (soup : Tag) (soup_content : option Tag)
    (url_concepts : DataFrame) (culture field : string) : result DataFrame :=
  Ok (mkFrame concept_schema []).

Definition keep_order (l : list pyval) : list pyval := l.

Definition one_seed_store : store :=
  {[ START_URLS_FILE := mkCsv ["urls"] [[sake_url]] ]}.

Definition start_at (queue : list pyval) : crawl_state :=
  {| next_urls := queue; visited_urls := []; files := ∅ |}.

(** An overflow table with a bare path and an absolute address. *)
Definition overflow_store : store :=
  {[ ALL_URLS_FILE :=
       mkCsv ["urls"] [["/wiki/Beer"]; ["https://de.wikipedia.org/wiki/Bier"]] ]}.

(** A page with a heading and a body of one paragraph, and a web that
    serves it at every address. *)
Definition sake_page : list node :=
  [Elem "h1" [("id", "firstHeading")] [Text "Sake"];
   Elem "div" [("id", "bodyContent")]
     [Elem "p" [] [Text "Sake is brewed from rice."]]].

Definition serving (page : list node) (url : string) : fetch_outcome :=
  Fetched (mkResponse 200 page).

(** ** Predicates and samples for the further properties *)

(** The key of a row in a merge: its cells under the stored columns. *)
Definition merge_key (old new : DataFrame) (r : list cell) : list cell :=
  map (row_get (columns (concat old new)) r) (columns old).


Definition culture_labels : list string :=
  ["german"; "spanish"; "chinese"; "korean"].

Definition field_labels : list string :=
  ["beverages"; "celebration"; "food"; "clothing"; "fruit"; "houses";
   "music"; "religion"; "sport"; "utensil"; "vegetable"; "visual arts"].

(** The text of an [<i>] element as the extraction sees it. *)
Definition italic_phrase (tag : Tag) : string :=
  Py.strip (get_text (tag_node tag)).

(** A body with two italic runs of one word, one of a single letter and
    one that is not alphabetic. *)
Definition italic_body : Tag :=
  BeautifulSoup
    [Elem "p" []
       [Elem "i" [] [Text " Sake "]; Elem "i" [] [Text "a"];
        Elem "i" [] [Text "sake"]; Elem "i" [] [Text "rice wine"]]].


(** A page with two interlanguage anchors. *)
Definition interlanguage_page : Tag :=
  BeautifulSoup
    [Elem "h1" [("id", "firstHeading")] [Text "German beer"];
     Elem "ul" []
       [Elem "li" [("class", "interlanguage-link interwiki-de")]
          [Elem "a" [("lang", "de");
                     ("href", "https://de.wikipedia.org/wiki/Bier")] []];
        Elem "li" [("class", "interlanguage-link interwiki-es")]
          [Elem "a" [("lang", "es");
                     ("href", "https://es.wikipedia.org/wiki/Cerveza")] []]]].

(** A body with a dated portrait, an undated portrait and a plain image. *)
Definition gallery_body : Tag :=
  BeautifulSoup
    [Elem "figure" []
       [Elem "img" [("src", "/img/leonardo-1500.jpg")] [];
        Elem "figcaption" [] [Text " Leonardo da Vinci in 1500 "]];
     Elem "figure" []
       [Elem "img" [("src", "/img/leonardo.jpg")] [];
        Elem "figcaption" [] [Text "Leonardo da Vinci"]];
     Elem "img" [("src", "/img/keg.gif"); ("alt", "A keg")] [];
     Elem "img" [("src", "/img/logo.png"); ("alt", "logo")] []].

(** A row of the image table: a source with an image suffix and a caption
    that carries a digit or matches no name. *)
Definition image_row_ok (PERSON_DB : list cell) (r : list cell) : Prop :=
  ∃ src cap,
    r = [Str src; Str cap]
    ∧ Py.endswith_any image_suffixes src = true
    ∧ dated_or_unnamed PERSON_DB cap = Ok true.

(** The three files the crawl loop writes. *)
Definition crawl_outputs : list string :=
  [IMAGES_FILE; ALL_URLS_FILE; CONCEPT_FILE].

(** A working directory with the three output files of an earlier run and
    a file of the user's own. *)
Definition crawl_store : store :=
  {[ IMAGES_FILE :=
       mkCsv ["img_source"; "img_captions"; "culture"; "semantic_field"] [];
     ALL_URLS_FILE := mkCsv ["urls"] [["/wiki/Beer"]];
     CONCEPT_FILE := mkCsv concept_schema [["sakura"; "german"; "food"]];
     "notes.csv" := mkCsv ["note"] [["keep me"]] ]}.

(** A page with a heading, an interlanguage anchor and a body with a
    titled link and a captioned image. *)
Definition beer_page : list node :=
  [Elem "h1" [("id", "firstHeading")] [Text "German beer"];
   Elem "ul" []
     [Elem "li" [("class", "interlanguage-link")]
        [Elem "a" [("lang", "de");
                   ("href", "https://de.wikipedia.org/wiki/Bier")] []]];
   Elem "div" [("id", "bodyContent")]
     [Elem "p" []
        [Elem "a" [("href", "/wiki/Hops"); ("title", "Hops")] [Text "hops"]];
      Elem "figure" []
        [Elem "img" [("src", "/img/keg.jpg")] [];
         Elem "figcaption" [] [Text "A keg"]]]].

(** The same directory after one pass over [beer_page]. *)
Definition crawl_store_after : store :=
  {[ IMAGES_FILE :=
       mkCsv ["img_source"; "img_captions"; "culture"; "semantic_field"]
         [["/img/keg.jpg"; "a keg"; "german"; "beverages"]];
     ALL_URLS_FILE := mkCsv ["urls"] [["/wiki/Beer"]; ["/wiki/Hops"]];
     CONCEPT_FILE := mkCsv concept_schema [["sakura"; "german"; "food"]];
     "notes.csv" := mkCsv ["note"] [["keep me"]] ]}.

Definition beer_run_start : crawl_state :=
  mkState [PStr sake_url; PStr japan_url] [] crawl_store.

Definition beer_run_end : crawl_state :=
  mkState [PStr japan_url; PStr "https://de.wikipedia.org/wiki/Bier"]
    [PStr sake_url] crawl_store_after.

(** *** The filter stage *)

(** The concept of a row of a table with columns [cols]. *)
Definition concept_of (cols : list string) (r : list cell) : cell :=
  row_get cols r "concepts".

(** The second and third cell of a row: its culture and semantic field in
    the tables [seperate_preassigned_concepts] is given. *)
Definition culture_cell (r : list cell) : cell := default NaN (r !! 1).
Definition field_cell (r : list cell) : cell := default NaN (r !! 2).

Definition is_double (r : list cell) : bool :=
  negb (ConceptFiltering.is_indian (culture_cell r))
  && ConceptFiltering.labelled (culture_cell r)
  && ConceptFiltering.labelled (field_cell r).

Definition is_single (r : list cell) : bool :=
  negb (ConceptFiltering.is_indian (culture_cell r))
  && xorb (ConceptFiltering.labelled (culture_cell r))
          (ConceptFiltering.labelled (field_cell r)).

Definition is_noisy (r : list cell) : bool :=
  negb (ConceptFiltering.labelled (culture_cell r))
  && negb (ConceptFiltering.labelled (field_cell r)).

(** The table of the rows of [concepts] that satisfy [p], in order. *)
Definition rows_where (p : list cell → bool) (concepts : DataFrame)
    : DataFrame :=
  {| columns := columns concepts;
     rows := map (reindex (columns concepts) (columns concepts))
               (List.filter p (rows concepts)) |}.

(** A table of model answers: a Spanish drink, a row whose language is a
    fragment of a language name, a row of another country and a row in a
    language outside the list. *)
Definition answers : DataFrame :=
  {| columns := ["concept"; "country"; "semantic_field"; "language"];
     rows := [[Str "Horchata"; Str "Spain"; Str "Beverages"; Str "Spanish"];
              [Str "sake"; Str "China"; Str "beverages"; Str "an"];
              [Str "sushi"; Str "japan"; Str "food"; Str "english"];
              [Str "kimchi"; Str "south korea"; Str "food"; Str "japanese"]] |}.

(** A table of preassigned concepts: both labels, an Indian row, one
    label, and none. *)
Definition preassigned_concepts : DataFrame :=
  {| columns := ["concept"; "country"; "semantic_field"; "language"];
     rows := [[Str "horchata"; Str "spain"; Str "beverages"; Str "spanish"];
              [Str "lassi"; Str " indian "; Str "beverages"; Str "hindi"];
              [Str "sake"; NaN; Str "beverages"; Str "japanese"];
              [Str "mochi"; Str "  "; NaN; Str "japanese"]] |}.

(** A table of concept candidates with a repeated concept and a person. *)
Definition candidates_store : store :=
  {[ ConceptFiltering.CONCEPT_FILE :=
       mkCsv concept_schema
         [["sakura"; "german"; "food"]; ["sakura"; "chinese"; "food"];
          ["marie curie"; ""; ""]; ["mochi"; ""; "food"]];
     "data/name_db.csv" := mkCsv ["name"] [["marie curie"]] ]}.




(** *** Text that the reader and the string methods treat as the model does *)

Definition is_ascii_char (c : ascii) : bool := (Py.code c <? 128)%N.

Definition is_ascii (s : string) : bool := Py.all_chars is_ascii_char s.

(** Text that [read_csv] cannot take for a number or a truth value,
    whatever else its column holds: it does not start with a digit, a
    sign, a point or white space, and it is none of inf, infinity, nan,
    true, false, in any case. *)
Definition not_numeric (s : string) : bool :=
  match s with
  | EmptyString => true
  | String c _ =>
      negb (Py.isdigit_char c || Py.isspace_char c
            || bool_decide (c ∈ ["+"; "-"; "."]%char))
  end
  && negb (bool_decide
             (Py.lower s ∈ ["inf"; "infinity"; "nan"; "true"; "false"])).


(** A file with distinct, non-empty column names, as many fields in every
    line as in the header, and fields that are read as missing values or
    as text. *)
Definition file_text (f : csv_file) : bool :=
  bool_decide (NoDup (header f) ∧ "" ∉ header f)
  && forallb (fun line =>
                bool_decide (length line = length (header f))
                && forallb (fun s => is_na_text s || not_numeric s) line)
       (lines f).

(** The file at [path], if there is one, has a header and holds text. *)
Definition text_table (fs : store) (path : string) : bool :=
  match fs !! path with
  | Some f => negb (bool_decide (header f = [])) && file_text f
  | None => true
  end.

(** A frame whose text cells are ASCII. *)
Definition frame_ascii (df : DataFrame) : bool :=
  forallb (forallb (fun c => match c with
                             | Str s => is_ascii s
                             | NaN => true
                             end)) (rows df).

(** The texts of the [<i>] elements of a body are ASCII. *)
Definition italics_ascii (soup_content : Tag) : bool :=
  forallb (fun tag => is_ascii (get_text (tag_node tag)))
    (find_all "i" soup_content).

(** The titles of the anchors of a body are ASCII. *)
Definition titles_ascii (soup_content : Tag) : bool :=
  forallb (fun link => match get "title" (tag_node link) with
                       | Some title => is_ascii title
                       | None => true
                       end)
    (find_all "a" soup_content).

(** *** Keeping the first row of a key *)

(** Position [i] of [l] holds a row whose key no earlier row has. *)
Definition first_of_key (key : list cell → list cell) (l : list (list cell))
    (i : nat) : Prop :=
  ∃ r, l !! i = Some r ∧ ∀ j r', j < i → l !! j = Some r' → key r' ≠ key r.

(** [m] holds the rows of [l] at the positions [idx], which ascend. *)
Definition ascending (idx : list nat) : Prop :=
  ∀ a b i j, idx !! a = Some i → idx !! b = Some j → a < b → i < j.

Definition rows_at (l : list (list cell)) (idx : list nat)
    (m : list (list cell)) : Prop :=
  ascending idx ∧ Forall2 (fun i r => l !! i = Some r) idx m.

(** *** Gold rows *)

(** The country and the semantic field of a row are target ones. *)
Definition target_row (cols : list string) (r : list cell) : bool :=
  bool_decide (row_get cols r "country" ∈ map Str ConceptFiltering.cultures)
  && bool_decide (row_get cols r "semantic_field"
                  ∈ map Str ConceptFiltering.semantic_fields).

Definition language_of (cols : list string) (r : list cell) : string :=
  cell_str (row_get cols r "language").

(** A target row whose language is a substring of some language name. *)
Definition is_gold (cols : list string) (r : list cell) : bool :=
  target_row cols r
  && existsb (fun name => Py.contains (language_of cols r) name)
       ConceptFiltering.languages.

(** [name] is the first language name, in the order german, korean,
    chinese, spanish, english, that holds [l] as a substring. *)
Definition first_language (l name : string) : Prop :=
  ∃ before after,
    ConceptFiltering.languages = before ++ name :: after
    ∧ Py.contains l name = true
    ∧ ∀ n, n ∈ before → Py.contains l n = false.

(** * Properties *)

(** ** Keep-first removal of duplicates *)

Section DropDuplicates.

Variable key : list cell → list cell.





Lemma drop_dup_go_sub (s : list (list cell)) (l : list (list cell)) (r : list cell) :
  r ∈ drop_dup_go key s l → r ∈ l ∧ key r ∉ s.
Proof.
  revert s.
  induction l as [|r' l IH]; intros s; simpl; [by rewrite elem_of_nil|].
  case_bool_decide as Hin.
  - intros [? ?]%IH. split; [by right|done].
  - rewrite elem_of_cons. intros [->|[? Hk]%IH]; [split; [by left|done]|].
    split; [by right|]. intros ?. apply Hk. by right.
Qed.

Lemma drop_dup_go_NoDup (s : list (list cell)) (l : list (list cell)) :
  NoDup (map key (drop_dup_go key s l)).
Proof.
  revert s.
  induction l as [|r l IH]; intros s; simpl; [constructor|].
  case_bool_decide as Hin; [apply IH|].
  simpl. apply NoDup_cons. split; [|apply IH].
  intros Hk. apply list_elem_of_In, in_map_iff in Hk as (r' & Heq & Hr').
  apply list_elem_of_In, drop_dup_go_sub in Hr' as [_ Hr'].
  apply Hr'. rewrite Heq. by left.
Qed.

Lemma drop_dup_go_cover (s : list (list cell)) (l : list (list cell)) (r : list cell) :
  r ∈ l → key r ∈ s ∨ key r ∈ map key (drop_dup_go key s l).
Proof.
  revert s.
  induction l as [|r' l IH]; intros s; [by rewrite elem_of_nil|].
  rewrite elem_of_cons. simpl. intros [->|Hr].
  - case_bool_decide as Hin; [by left|]. right. simpl. by left.
  - case_bool_decide as Hin; [by apply IH|].
    destruct (IH (key r' :: s) Hr) as [Hs|Hd].
    + apply elem_of_cons in Hs as [->|Hs]; [|by left].
      right. simpl. by left.
    + right. simpl. by right.
Qed.


End DropDuplicates.

(** ** Rows, columns and the CSV round trip *)

Lemma col_index_lookup (c : string) (cols : list string) (i : nat) :
  col_index c cols = Some i → cols !! i = Some c.
Proof.
  revert i. induction cols as [|c' cols IH]; intros i; simpl; [discriminate|].
  case_bool_decide as Heq.
  - intros [= <-]. simpl. by rewrite Heq.
  - destruct (col_index c cols) as [j|]; [|discriminate].
    intros [= <-]. simpl. by apply IH.
Qed.

Lemma col_index_elem (c : string) (cols : list string) :
  c ∈ cols → ∃ i, col_index c cols = Some i ∧ i < length cols.
Proof.
  induction cols as [|c' cols IH]; [by rewrite elem_of_nil|].
  rewrite elem_of_cons. simpl. intros Hc.
  case_bool_decide as Heq; [exists 0; split; [done|lia]|].
  destruct Hc as [->|Hc]; [done|].
  destruct (IH Hc) as (i & -> & Hi). exists (S i). split; [done|lia].
Qed.

Lemma reindex_lookup (cols cols' : list string) (r : list cell) (i : nat) (c : string) :
  cols' !! i = Some c → reindex cols cols' r !! i = Some (row_get cols r c).
Proof.
  intros Hi. unfold reindex.
  change (map (row_get cols r) cols') with (row_get cols r <$> cols').
  by rewrite list_lookup_fmap, Hi.
Qed.

Lemma row_get_reindex (cols cols' : list string) (r : list cell) (c : string) :
  c ∈ cols' → row_get cols' (reindex cols cols' r) c = row_get cols r c.
Proof.
  intros (i & Hi & _)%col_index_elem.
  unfold row_get at 1. rewrite Hi.
  by rewrite (reindex_lookup _ _ _ _ _ (col_index_lookup _ _ _ Hi)).
Qed.

(** A row laid out along [cols'] is not changed by laying it out again. *)
Lemma reindex_again (cols cols' : list string) (r : list cell) :
  reindex cols' cols' (reindex cols cols' r) = reindex cols cols' r.
Proof.
  unfold reindex at 1 3. apply map_ext_in. intros c Hc.
  apply row_get_reindex, list_elem_of_In, Hc.
Qed.

Lemma map_fixed {A} (f : A → A) (l : list A) :
  (∀ x, x ∈ l → f x = x) → map f l = l.
Proof.
  induction l as [|x l IH]; intros Hf; simpl; [reflexivity|].
  rewrite Hf by (by left). f_equal. apply IH. intros y Hy. apply Hf. by right.
Qed.

Lemma parse_field_reads_back (s : string) : reads_back (parse_field s) = true.
Proof.
  unfold parse_field. destruct (is_na_text s) eqn:Hs; simpl; [done|].
  by rewrite Hs.
Qed.

Lemma parse_field_text (c : cell) :
  reads_back c = true → parse_field (field_text c) = c.
Proof.
  destruct c as [s|]; simpl; [|done].
  unfold parse_field. by destruct (is_na_text s).
Qed.



Lemma parse_csv_reads_back (f : csv_file) :
  frame_reads_back (parse_csv f) = true.
Proof.
  unfold frame_reads_back. simpl. apply forallb_forall. intros r Hr.
  apply in_map_iff in Hr as (l & <- & _).
  apply forallb_forall. intros x Hx.
  apply in_map_iff in Hx as (s & <- & _). apply parse_field_reads_back.
Qed.


(** ** Merging under a shared schema *)

Lemma filter_outside_nil (cols new_cols : list string) :
  forallb (fun c => bool_decide (c ∈ cols)) new_cols = true →
  List.filter (fun c => bool_decide (c ∉ cols)) new_cols = [].
Proof.
  induction new_cols as [|c l IH]; simpl; [done|].
  intros [Hc Hl]%andb_prop. apply bool_decide_eq_true in Hc.
  rewrite bool_decide_eq_false_2 by (intros Hn; by apply Hn). by apply IH.
Qed.

Lemma merge_within (old new : DataFrame) :
  forallb (fun c => bool_decide (c ∈ columns old)) (columns new) = true →
  concat_and_filter_unique_values old new
  = {| columns := columns old; rows := merged_rows old new |}.
Proof.
  intros Hin. unfold concat_and_filter_unique_values, drop_duplicates, concat.
  simpl. rewrite (filter_outside_nil _ _ Hin), app_nil_r. reflexivity.
Qed.

Lemma merged_rows_laid_out (old new : DataFrame) (r : list cell) :
  r ∈ merged_rows old new →
  reindex (columns old) (columns old) r = r.
Proof.
  intros [Hr _]%drop_dup_go_sub.
  apply elem_of_app in Hr as [Hr|Hr];
    apply list_elem_of_In, in_map_iff in Hr as (r' & <- & _);
    apply reindex_again.
Qed.



(** ** The incremental store *)


Lemma overwrite_file_present (filename : string) (f : csv_file)
    (new_rows : DataFrame) (fs : store) :
  fs !! filename = Some f →
  overwrite_file filename (Frame new_rows) "csv" fs
  = Ok (<[filename :=
            render_csv (concat_and_filter_unique_values (parse_csv f) new_rows)]>
          fs).
Proof. intros Hf. unfold overwrite_file, read_csv. simpl. by rewrite Hf. Qed.



(** C5: the stored table is absent.  [pd.read_csv] raises, so nothing is
    written; a run in a fresh directory ends at the first page fetched, when
    the image table is to be merged. *)
Theorem overwrite_file_absent (filename : string) (new_rows : DataFrame)
    (page_concepts : Tag → option Tag → DataFrame → string → string
                     → result DataFrame) :
  overwrite_file filename (Frame new_rows) "csv" (∅ : store)
  = Raise FileNotFoundError
  ∧ main (serving sake_page) keep_order page_concepts one_seed_store
    = Raise FileNotFoundError.
Proof.
  split; [|vm_compute; reflexivity].
  unfold overwrite_file, read_csv. simpl. by rewrite lookup_empty.
Qed.


Lemma filter_single {A} (p : A → bool) (l : list A) (x : A) :
  NoDup l → x ∈ l → p x = true → (∀ y, y ∈ l → p y = true → y = x) →
  List.filter p l = [x].
Proof.
  induction l as [|a l IH]; intros Hnd Hx Hp Huniq; [by apply elem_of_nil in Hx|].
  apply NoDup_cons in Hnd as [Ha Hnd]. simpl.
  destruct (p a) eqn:Hpa.
  - assert (a = x) as -> by (apply Huniq; [by left|done]).
    f_equal. clear IH.
    induction l as [|b l IHl]; simpl; [done|].
    destruct (p b) eqn:Hpb.
    + exfalso. apply Ha. assert (b = x) as -> by (apply Huniq; [right; by left|done]).
      by left.
    + apply IHl.
      * intros Hin. apply Ha. by right.
      * by apply NoDup_cons in Hnd as [_ ?].
      * by left.
      * intros y Hy. apply Huniq. apply elem_of_cons in Hy as [->|Hy]; [by left|].
        right. by right.
  - apply IH; [done| |done|].
    + apply elem_of_cons in Hx as [->|Hx]; [congruence|done].
    + intros y Hy. apply Huniq. by right.
Qed.

Lemma merged_rows_NoDup (old new : DataFrame) : NoDup (merged_rows old new).
Proof.
  rewrite <- (map_fixed (reindex (columns old) (columns old)) (merged_rows old new))
    by (intros r Hr; by eapply merged_rows_laid_out).
  apply drop_dup_go_NoDup.
Qed.

(** No row is lost in a merge: a row of the stored table or of the new
    rows, laid out along the stored columns, is a row of the result. *)
Lemma merged_rows_keep (old new : DataFrame) (r : list cell) :
  r ∈ map (reindex (columns old) (columns old)) (rows old)
      ++ map (reindex (columns new) (columns old)) (rows new) →
  r ∈ merged_rows old new.
Proof.
  intros Hr.
  assert (Hfix : reindex (columns old) (columns old) r = r).
  { apply elem_of_app in Hr as [Hr|Hr];
      apply list_elem_of_In, in_map_iff in Hr as (r0 & <- & _);
      apply reindex_again. }
  pose proof (drop_dup_go_cover (reindex (columns old) (columns old)) [] _ r Hr)
    as [Hs|Hd]; [by apply elem_of_nil in Hs|].
  change (drop_dup_go _ [] _) with (merged_rows old new) in Hd.
  rewrite map_fixed in Hd by (intros x Hx; by eapply merged_rows_laid_out).
  by rewrite Hfix in Hd.
Qed.

Lemma merged_rows_keep_old (old new : DataFrame) (r : list cell) :
  r ∈ rows old → reindex (columns old) (columns old) r ∈ merged_rows old new.
Proof.
  intros Hr. apply merged_rows_keep, elem_of_app. left.
  apply list_elem_of_In, in_map, list_elem_of_In, Hr.
Qed.

Lemma merged_rows_keep_new (old new : DataFrame) (r : list cell) :
  r ∈ rows new → reindex (columns new) (columns old) r ∈ merged_rows old new.
Proof.
  intros Hr. apply merged_rows_keep, elem_of_app. right.
  apply list_elem_of_In, in_map, list_elem_of_In, Hr.
Qed.

Lemma merged_rows_origin (old new : DataFrame) (r : list cell) :
  r ∈ merged_rows old new →
  (∃ r0, r0 ∈ rows old ∧ r = reindex (columns old) (columns old) r0)
  ∨ (∃ r0, r0 ∈ rows new ∧ r = reindex (columns new) (columns old) r0).
Proof.
  intros [Hr _]%drop_dup_go_sub.
  apply elem_of_app in Hr as [Hr|Hr];
    apply list_elem_of_In, in_map_iff in Hr as (r0 & <- & Hr0);
    [left|right]; exists r0; (split; [by apply list_elem_of_In|done]).
Qed.

Lemma row_get_map (g : cell → cell) (cols : list string) (r : list cell) (c : string) :
  g NaN = NaN → row_get cols (map g r) c = g (row_get cols r c).
Proof.
  intros Hg. unfold row_get. destruct (col_index c cols) as [i|]; [|done].
  change (map g r) with (g <$> r). rewrite list_lookup_fmap.
  by destruct (r !! i).
Qed.

Lemma reparse_concept (x : cell) (c : string) :
  is_na_text c = false →
  parse_field (field_text x) = Str c ↔ x = Str c.
Proof.
  intros Hc. destruct x as [s|]; simpl; unfold parse_field.
  - destruct (is_na_text s) eqn:Hs; split; intros [= ->]; congruence.
  - simpl. split; discriminate.
Qed.

(** C3, as stated, fails: the whole row is the key, not the concept text.
    A stored sakura row labelled german and a new one labelled chinese are
    both kept; and a new unlabelled sakura row is kept next to the stored
    unlabelled one, whose empty fields were read as missing values. *)
Lemma merge_keeps_two_rows_of_one_concept :
  stored_after CONCEPT_FILE sakura_chinese sakura_german_store
  = Ok (Some (mkCsv concept_schema
                [["sakura"; "german"; "food"]; ["sakura"; "chinese"; "food"]]))
  ∧ stored_after CONCEPT_FILE sakura_unlabelled sakura_unlabelled_store
    = Ok (Some (mkCsv concept_schema
                  [["sakura"; ""; ""]; ["sakura"; ""; ""]])).
Proof. split; vm_compute; reflexivity. Qed.

Lemma rows_of_concept_rendered (cols : list string) (rs : list (list cell))
    (c : string) :
  rows_of_concept c (parse_csv (render_csv (mkFrame cols rs)))
  = List.filter (fun r => bool_decide (row_get cols r "concepts" = Str c))
      (map (fun r => map parse_field (map field_text r)) rs).
Proof. unfold rows_of_concept, parse_csv, render_csv. simpl. by rewrite map_map. Qed.

(** C3, amended: duplicates are removed by the whole row over the stored
    columns.  When the stored concept table, as loaded, and the new table
    both hold the row (c, culture, field) and hold no other row for the
    concept c, the table written back holds exactly that one row for c. *)
Theorem merge_identical_concept_row (filename : string) (f : csv_file)
    (new_rows : DataFrame) (fs : store) (c : string) (culture field : cell) :
  fs !! filename = Some f →
  header f = concept_schema →
  columns new_rows = concept_schema →
  [Str c; culture; field] ∈ rows (parse_csv f) →
  [Str c; culture; field] ∈ rows new_rows →
  (∀ r, r ∈ rows (parse_csv f) ++ rows new_rows →
        row_get concept_schema r "concepts" = Str c →
        r = [Str c; culture; field]) →
  ∃ fs1 f1,
    overwrite_file filename (Frame new_rows) "csv" fs = Ok fs1
    ∧ fs1 !! filename = Some f1
    ∧ rows_of_concept c (parse_csv f1) = [[Str c; culture; field]].
Proof.
  intros Hf Hhead Hcols Hold Hnew Huniq.
  set (row := [Str c; culture; field]) in *.
  set (old := parse_csv f) in *.
  assert (Hco : columns old = concept_schema) by exact Hhead.
  assert (Hrow : reindex concept_schema concept_schema row = row) by reflexivity.
  assert (Hwithin : forallb (fun c => bool_decide (c ∈ columns old))
                      (columns new_rows) = true)
    by (rewrite Hco, Hcols; reflexivity).
  assert (Hclean : forallb reads_back row = true).
  { pose proof (parse_csv_reads_back f) as Hall.
    unfold frame_reads_back in Hall. rewrite forallb_forall in Hall.
    apply Hall, list_elem_of_In, Hold. }
  assert (Hc : is_na_text c = false).
  { simpl in Hclean. apply andb_prop in Hclean as [Hc _].
    by apply negb_true_iff in Hc. }
  exists (<[filename :=
             render_csv (concat_and_filter_unique_values old new_rows)]> fs).
  eexists. split; [by apply overwrite_file_present|].
  split; [apply lookup_insert_eq|].
  rewrite (merge_within old new_rows Hwithin), rows_of_concept_rendered, Hco.
  set (g := fun r : list cell => map parse_field (map field_text r)).
  assert (Hg : ∀ r, row_get concept_schema (g r) "concepts" = Str c
                    ↔ row_get concept_schema r "concepts" = Str c).
  { intros r. unfold g. rewrite map_map.
    rewrite (row_get_map (fun x => parse_field (field_text x))) by reflexivity.
    by apply reparse_concept. }
  assert (Hin : row ∈ merged_rows old new_rows).
  { rewrite <- Hrow at 1. rewrite <- Hco. by apply merged_rows_keep_old. }
  assert (Hone : ∀ r, r ∈ merged_rows old new_rows →
                      row_get concept_schema r "concepts" = Str c → r = row).
  { intros r [(r0 & Hr0 & ->)|(r0 & Hr0 & ->)]%merged_rows_origin;
      rewrite ?Hco, ?Hcols; intros Hr;
      rewrite row_get_reindex in Hr by (unfold concept_schema; by left);
      rewrite (Huniq r0); auto; apply elem_of_app; auto. }
  assert (Hmap : ∀ l : list (list cell),
    List.filter (fun r => bool_decide (row_get concept_schema r "concepts" = Str c))
      (map g l)
    = map g (List.filter
               (fun r => bool_decide (row_get concept_schema r "concepts" = Str c)) l)).
  { induction l as [|r l IH]; simpl; [done|].
    rewrite (bool_decide_ext _ _ (Hg r)). case_bool_decide; simpl; by rewrite IH. }
  rewrite Hmap.
  rewrite (filter_single _ _ row (merged_rows_NoDup old new_rows) Hin).
  - simpl. f_equal. unfold g. rewrite map_map. apply map_fixed.
    intros x Hx. apply parse_field_text.
    rewrite forallb_forall in Hclean. apply Hclean, list_elem_of_In, Hx.
  - by apply bool_decide_eq_true_2.
  - intros r Hr Hp. apply Hone; [done|]. by apply bool_decide_eq_true in Hp.
Qed.

Lemma merge_identical_concept_row_witness :
  ∃ fs1 f1,
    overwrite_file CONCEPT_FILE (Frame sakura_german) "csv" sakura_german_store
    = Ok fs1
    ∧ fs1 !! CONCEPT_FILE = Some f1
    ∧ rows_of_concept "sakura" (parse_csv f1)
      = [[Str "sakura"; Str "german"; Str "food"]].
Proof.
  apply (merge_identical_concept_row CONCEPT_FILE
           (mkCsv concept_schema [["sakura"; "german"; "food"]])
           sakura_german sakura_german_store "sakura" (Str "german") (Str "food"));
    try reflexivity.
  - vm_compute. by left.
  - vm_compute. by left.
  - intros r Hr _. vm_compute in Hr.
    apply elem_of_cons in Hr as [->|Hr]; [reflexivity|].
    apply elem_of_cons in Hr as [->|Hr]; [reflexivity|].
    by apply elem_of_nil in Hr.
Defined.

(** ** Reference names *)

Lemma all_in_spec (words caption_words : list string) :
  ConceptExtraction.all_in words caption_words = true
  ↔ ∀ w, w ∈ words → w ∈ caption_words.
Proof.
  unfold ConceptExtraction.all_in. rewrite forallb_forall. split.
  - intros H w Hw. apply list_elem_of_In, H in Hw. by apply bool_decide_eq_true in Hw.
  - intros H w Hw. apply bool_decide_eq_true, H, list_elem_of_In, Hw.
Qed.

Lemma any_in_spec (words caption_words : list string) :
  ConceptFiltering.any_in words caption_words = true
  ↔ ∃ w, w ∈ words ∧ w ∈ caption_words.
Proof.
  unfold ConceptFiltering.any_in. rewrite existsb_exists. split.
  - intros (w & Hw & Hc). exists w. split; [by apply list_elem_of_In|].
    by apply bool_decide_eq_true in Hc.
  - intros (w & Hw & Hc). exists w. split; [by apply list_elem_of_In|].
    by apply bool_decide_eq_true.
Qed.

(** Over a series of text entries the crawl-stage test returns, and says
    whether all words of some entry are among the caption's words. *)
Lemma extraction_person_loop_spec (names : list string) (caption_words : list string) :
  ∃ b, ConceptExtraction.person_loop caption_words (map Str names) = Ok b
       ∧ (b = true ↔ ∃ name, name ∈ names
                              ∧ ∀ w, w ∈ Py.split name → w ∈ caption_words).
Proof.
  induction names as [|name names (b & Hb & IH)]; simpl.
  - exists false. split; [done|]. split; [done|].
    intros (name & Hname & _). by apply elem_of_nil in Hname.
  - destruct (ConceptExtraction.all_in (Py.split name) caption_words) eqn:Hall.
    + exists true. split; [done|]. split; [|done]. intros _.
      exists name. split; [by left|]. by apply all_in_spec.
    + exists b. split; [done|]. rewrite IH. split.
      * intros (n & Hn & Hw). exists n. split; [by right|done].
      * intros (n & Hn & Hw). apply elem_of_cons in Hn as [->|Hn].
        -- apply all_in_spec in Hw. congruence.
        -- by exists n.
Qed.

(** The filtering-stage test says whether some word of some entry is among
    the caption's words. *)
Lemma filtering_person_loop_spec (names : list string) (caption_words : list string) :
  ∃ b, ConceptFiltering.person_loop caption_words (map Str names) = Ok b
       ∧ (b = true ↔ ∃ name, name ∈ names
                              ∧ ∃ w, w ∈ Py.split name ∧ w ∈ caption_words).
Proof.
  induction names as [|name names (b & Hb & IH)]; simpl.
  - exists false. split; [done|]. split; [done|].
    intros (name & Hname & _). by apply elem_of_nil in Hname.
  - destruct (ConceptFiltering.any_in (Py.split name) caption_words) eqn:Hany.
    + exists true. split; [done|]. split; [|done]. intros _.
      exists name. split; [by left|]. by apply any_in_spec.
    + exists b. split; [done|]. rewrite IH. split.
      * intros (n & Hn & Hw). exists n. split; [by right|done].
      * intros (n & Hn & Hw). apply elem_of_cons in Hn as [->|Hn].
        -- apply any_in_spec in Hw. congruence.
        -- by exists n.
Qed.

(** C4, as stated, fails for the test of concept_filtering.py: with the
    entry leonardo da vinci, a caption holding leonardo alone is accepted,
    although da and vinci are not among its words. *)
Lemma filtering_accepts_a_single_name_word :
  ConceptFiltering.contains_person_name
    [Str "leonardo da vinci"] (Str "leonardo cafe") = Ok true
  ∧ ConceptExtraction.all_in
      (Py.split "leonardo da vinci") (Py.split "leonardo cafe") = false
  ∧ ConceptExtraction.contains_person_name
      [Str "leonardo da vinci"] (Str "leonardo cafe") = Ok false.
Proof. repeat split; vm_compute; reflexivity. Qed.

(** C4, amended: over text entries, [contains_person_name] of
    concept_extraction.py is true exactly when every word of some entry is
    a whole word of the caption; [contains_person_name] of
    concept_filtering.py is true exactly when at least one word of some
    entry is a whole word of the caption.  With the entry leonardo da vinci
    both accept the painting caption and both reject the cafe one. *)
Theorem person_name_matching (names : list string) (caption : string) :
  (∃ b, ConceptExtraction.contains_person_name (map Str names) (Str caption)
        = Ok b
        ∧ (b = true ↔ ∃ name, name ∈ names
                               ∧ ∀ w, w ∈ Py.split name → w ∈ Py.split caption))
  ∧ (∃ b, ConceptFiltering.contains_person_name (map Str names) (Str caption)
          = Ok b
          ∧ (b = true ↔ ∃ name, name ∈ names
                                 ∧ ∃ w, w ∈ Py.split name
                                        ∧ w ∈ Py.split caption))
  ∧ ConceptExtraction.contains_person_name [Str "leonardo da vinci"]
      (Str "the painting by leonardo da vinci") = Ok true
  ∧ ConceptExtraction.contains_person_name [Str "leonardo da vinci"]
      (Str "leonardo's cafe") = Ok false
  ∧ ConceptFiltering.contains_person_name [Str "leonardo da vinci"]
      (Str "the painting by leonardo da vinci") = Ok true
  ∧ ConceptFiltering.contains_person_name [Str "leonardo da vinci"]
      (Str "leonardo's cafe") = Ok false.
Proof.
  split; [apply extraction_person_loop_spec|].
  split; [apply filtering_person_loop_spec|].
  repeat split; vm_compute; reflexivity.
Qed.

(** ** Captioned images *)

Lemma person_loop_raises (caption_words : list string) (db : list cell) (e : exn) :
  ConceptExtraction.person_loop caption_words db = Raise e → e = AttributeError.
Proof.
  induction db as [|[name|] db IH]; simpl; [discriminate| |congruence].
  destruct (ConceptExtraction.all_in _ _); [discriminate|exact IH].
Qed.

Lemma dated_or_unnamed_raises (db : list cell) (text : string) (e : exn) :
  dated_or_unnamed db text = Raise e → e = AttributeError.
Proof.
  unfold dated_or_unnamed. destruct (Py.any_digit text); [discriminate|].
  simpl. destruct (ConceptExtraction.person_loop _ db) eqn:Hloop; simpl;
    [discriminate|].
  intros [= <-]. by eapply person_loop_raises.
Qed.

(** One figure either stops the scan with an [AttributeError] or hands
    over to the scan of the remaining figures. *)
Lemma figure_scan_step (db : list cell) (fig : Tag) (figs : list Tag)
    (caps srcs : list string) :
  figure_scan db (fig :: figs) caps srcs = Raise AttributeError
  ∨ ∃ caps' srcs',
      figure_scan db (fig :: figs) caps srcs = figure_scan db figs caps' srcs'.
Proof.
  simpl. destruct (find "img" fig) as [img|]; [|right; by eexists _, _].
  destruct (find "figcaption" fig) as [figcaption|]; [|by left].
  destruct (dated_or_unnamed db _) as [[|]|e] eqn:Hkeep; simpl.
  - destruct (get "src" (tag_node img)) as [src|]; [|by left].
    match goal with |- context [if ?b then _ else _] => destruct b end;
      right; by eexists _, _.
  - right; by eexists _, _.
  - apply dated_or_unnamed_raises in Hkeep as ->. by left.
Qed.

Lemma figure_scan_raises (db : list cell) (figs : list Tag)
    (caps srcs : list string) (e : exn) :
  figure_scan db figs caps srcs = Raise e → e = AttributeError.
Proof.
  revert caps srcs. induction figs as [|fig figs IH]; intros caps srcs;
    [discriminate|].
  destruct (figure_scan_step db fig figs caps srcs) as [->|(c & s & ->)];
    [congruence|apply IH].
Qed.

Lemma figure_scan_missing_caption (db : list cell) (figs : list Tag)
    (caps srcs : list string) (fig : Tag) :
  fig ∈ figs → is_Some (find "img" fig) → find "figcaption" fig = None →
  figure_scan db figs caps srcs = Raise AttributeError.
Proof.
  intros Hin [img Himg] Hcap. revert caps srcs.
  induction figs as [|fig' figs IH]; intros caps srcs;
    [by apply elem_of_nil in Hin|].
  apply elem_of_cons in Hin as [<-|Hin].
  - simpl. by rewrite Himg, Hcap.
  - destruct (figure_scan_step db fig' figs caps srcs) as [->|(c & s & ->)];
      [done|by apply IH].
Qed.

Lemma image_scan_step (db : list cell) (img : Tag) (imgs : list Tag)
    (caps srcs : list string) :
  image_scan db (img :: imgs) caps srcs = Raise AttributeError
  ∨ ∃ caps' srcs',
      image_scan db (img :: imgs) caps srcs = image_scan db imgs caps' srcs'.
Proof.
  simpl. destruct (get "src" (tag_node img)) as [src|]; [|by left].
  match goal with |- context [if ?b then _ else _] => destruct b end;
    [|right; by eexists _, _].
  destruct (get "alt" (tag_node img)) as [alt|]; [|right; by eexists _, _].
  destruct (bool_decide (alt = "")); [right; by eexists _, _|].
  destruct (dated_or_unnamed db _) as [[|]|e] eqn:Hkeep; simpl.
  - right; by eexists _, _.
  - right; by eexists _, _.
  - apply dated_or_unnamed_raises in Hkeep as ->. by left.
Qed.

Lemma image_scan_missing_src (db : list cell) (imgs : list Tag)
    (caps srcs : list string) (img : Tag) :
  img ∈ imgs → get "src" (tag_node img) = None →
  image_scan db imgs caps srcs = Raise AttributeError.
Proof.
  intros Hin Hsrc. revert caps srcs.
  induction imgs as [|img' imgs IH]; intros caps srcs;
    [by apply elem_of_nil in Hin|].
  apply elem_of_cons in Hin as [<-|Hin].
  - simpl. by rewrite Hsrc.
  - destruct (image_scan_step db img' imgs caps srcs) as [->|(c & s & ->)];
      [done|by apply IH].
Qed.

(** C10: on a page whose body has a figure with an image and no caption
    element, or an image without a [src] attribute, [get_captioned_images]
    raises an [AttributeError] and returns no table. *)
Theorem get_captioned_images_raises (PERSON_DB : list cell) (soup_content : Tag) :
  (∃ fig, fig ∈ find_all "figure" soup_content
          ∧ is_Some (find "img" fig) ∧ find "figcaption" fig = None)
  ∨ (∃ img, img ∈ find_all "img" soup_content
            ∧ get "src" (tag_node img) = None) →
  get_captioned_images PERSON_DB soup_content = Raise AttributeError.
Proof.
  unfold get_captioned_images.
  intros [(fig & Hin & Himg & Hcap)|(img & Hin & Hsrc)].
  - by rewrite (figure_scan_missing_caption _ _ _ _ fig Hin Himg Hcap).
  - destruct (figure_scan PERSON_DB _ [] []) as [[caps srcs]|e] eqn:Hfig; simpl.
    + by rewrite (image_scan_missing_src _ _ _ _ img Hin Hsrc).
    + by apply figure_scan_raises in Hfig as ->.
Qed.

Lemma get_captioned_images_raises_witness :
  get_captioned_images [Str "leonardo da vinci"] uncaptioned_figure_body
  = Raise AttributeError
  ∧ get_captioned_images [Str "leonardo da vinci"] sourceless_image_body
    = Raise AttributeError.
Proof.
  split; apply get_captioned_images_raises.
  - left. eexists. split; [vm_compute; left|]. split; [by eexists|reflexivity].
  - right. eexists. split; [vm_compute; left|]. reflexivity.
Defined.

(** ** Outbound links *)

(** With no reference section on the page there is no cutoff, and one
    anchor is handled as follows. *)
Lemma link_loop_no_section_step (link : Tag) (links : list Tag)
    (urls concepts : list string) :
  link_loop None (link :: links) urls concepts
  = match internal_content_link (get "href" (tag_node link)) with
    | Some h =>
        match get "title" (tag_node link) with
        | None => Raise AttributeError
        | Some title =>
            link_loop None links (set_add h urls)
              (if Py.isalpha title && bool_decide (1 < Py.len title)
               then set_add (Py.lower title) concepts else concepts)
        end
    | None => link_loop None links urls concepts
    end.
Proof. reflexivity. Qed.

Lemma set_add_elem (x y : string) (s : list string) :
  y ∈ set_add x s ↔ y = x ∨ y ∈ s.
Proof.
  unfold set_add. case_bool_decide as Hx.
  - split; [by right|]. by intros [->|?].
  - rewrite elem_of_app, list_elem_of_singleton. tauto.
Qed.

(** An internal content link without a title stops the extraction with an
    [AttributeError], wherever it stands before the cutoff; here for a page
    without reference section. *)
Lemma link_loop_untitled (links : list Tag) (urls concepts : list string)
    (link : Tag) :
  link ∈ links →
  is_Some (internal_content_link (get "href" (tag_node link))) →
  get "title" (tag_node link) = None →
  link_loop None links urls concepts = Raise AttributeError.
Proof.
  intros Hin [h Hh] Htitle. revert urls concepts.
  induction links as [|l links IH]; intros urls concepts;
    [by apply elem_of_nil in Hin|].
  rewrite link_loop_no_section_step.
  apply elem_of_cons in Hin as [<-|Hin]; [by rewrite Hh, Htitle|].
  destruct (internal_content_link (get "href" (tag_node l))); [|by apply IH].
  destruct (get "title" (tag_node l)); [by apply IH|done].
Qed.

(** When every anchor carries a title, the href of each internal content
    link is collected whatever the title is, and a title is collected, in
    lower case, exactly when it is alphabetic and longer than one
    character. *)
Lemma link_loop_titled (links : list Tag) (urls concepts : list string) :
  (∀ link, link ∈ links → is_Some (get "title" (tag_node link))) →
  ∃ urls' concepts',
    link_loop None links urls concepts = Ok (urls', concepts')
    ∧ (∀ h, h ∈ urls' ↔
         h ∈ urls
         ∨ ∃ link, link ∈ links
             ∧ internal_content_link (get "href" (tag_node link)) = Some h)
    ∧ (∀ t, t ∈ concepts' ↔
         t ∈ concepts
         ∨ ∃ link title, link ∈ links
             ∧ is_Some (internal_content_link (get "href" (tag_node link)))
             ∧ get "title" (tag_node link) = Some title
             ∧ Py.isalpha title = true ∧ 1 < Py.len title
             ∧ t = Py.lower title).
Proof.
  revert urls concepts.
  induction links as [|l links IH]; intros urls concepts Htitled.
  - exists urls, concepts. split; [done|].
    split; intros x; (split; [by left|]);
      intros [?|(link & ?)]; [done| |done|];
      destruct_and?; try destruct H as (? & ? & _);
      exfalso; eapply not_elem_of_nil; eauto.
  - rewrite link_loop_no_section_step.
    destruct (Htitled l) as [title Ht]; [by left|]. rewrite Ht.
    assert (Hrest : ∀ link, link ∈ links
                            → is_Some (get "title" (tag_node link)))
      by (intros link Hl; apply Htitled; by right).
    destruct (internal_content_link (get "href" (tag_node l))) as [h0|] eqn:Hh.
    + destruct (IH (set_add h0 urls)
                  (if Py.isalpha title && bool_decide (1 < Py.len title)
                   then set_add (Py.lower title) concepts else concepts) Hrest)
        as (urls' & concepts' & -> & Hu & Hc).
      exists urls', concepts'. split; [done|]. split.
      * intros h. rewrite Hu, set_add_elem. split.
        -- intros [[->|?]|(link & Hl & Hlh)]; [right|by left|right].
           ++ exists l. split; [by left|done].
           ++ exists link. split; [by right|done].
        -- intros [?|(link & [->|Hl]%elem_of_cons & Hlh)].
           ++ left. by right.
           ++ left. left. congruence.
           ++ right. by exists link.
      * intros t. rewrite Hc. split.
        -- intros [Ht0|(link & title' & Hl & Hrem)].
           ++ destruct (Py.isalpha title && bool_decide (1 < Py.len title)) eqn:Hcond;
                [|by left].
              apply set_add_elem in Ht0 as [->|?]; [|by left].
              apply andb_prop in Hcond as [Ha Hlen].
              apply bool_decide_eq_true in Hlen.
              right. exists l, title. split; [by left|]. by rewrite Hh.
           ++ right. exists link, title'. split; [by right|done].
        -- intros [?|(link & title' & [->|Hl]%elem_of_cons & Hi & Hti & Ha & Hlen & ->)].
           ++ left. destruct (_ && _); [apply set_add_elem; by right|done].
           ++ left. assert (title' = title) as -> by congruence.
              rewrite Ha, (bool_decide_eq_true_2 _ Hlen). simpl.
              apply set_add_elem. by left.
           ++ right. by exists link, title'.
    + destruct (IH urls concepts Hrest) as (urls' & concepts' & -> & Hu & Hc).
      exists urls', concepts'. split; [done|]. split.
      * intros h. rewrite Hu. split.
        -- intros [?|(link & Hl & Hlh)]; [by left|].
           right. exists link. split; [by right|done].
        -- intros [?|(link & [->|Hl]%elem_of_cons & Hlh)]; [by left|congruence|].
           right. by exists link.
      * intros t. rewrite Hc. split.
        -- intros [?|(link & title' & Hl & Hrem)]; [by left|].
           right. exists link, title'. split; [by right|done].
        -- intros [?|(link & title' & [->|Hl]%elem_of_cons & [? Hi] & Hrem)];
             [by left|congruence|].
           right. exists link, title'. split; [done|]. split; [by eexists|done].
Qed.

(** C9: on an English page whose body holds an internal content link
    without a [title], the extraction raises instead of returning the href;
    with titles present, hrefs before the cutoff are returned whatever the
    title, and only the alphabetic title becomes a concept. *)
Theorem extract_link_concepts_and_urls_untitled :
  extract_link_concepts_and_urls untitled_link_body japan_url
  = Raise AttributeError
  ∧ extract_link_concepts_and_urls titled_links_body japan_url
    = Ok (single_column "urls" ["/wiki/Sake"; "/wiki/Sake_(drink)"],
          single_column "concepts" ["sake"]).
Proof. split; vm_compute; reflexivity. Qed.

(** ** The frontier *)

Lemma append_multilingual_url_cases (soup : Tag) (default_culture : string)
    (next_urls visited_urls : list pyval) :
  append_multilingual_url soup default_culture next_urls visited_urls = next_urls
  ∨ (∃ new_link,
       (new_link ∉ visited_urls)
       ∧ append_multilingual_url soup default_culture next_urls visited_urls
         = next_urls ++ [new_link]).
Proof.
  unfold append_multilingual_url.
  destruct (Py.dict_get culture_languages default_culture) as [code|]; [|by left].
  destruct (lang_get _ (Some code)) as [new_link|]; [|by left].
  case_bool_decide as Hnew; [|by left].
  right. by exists (of_option new_link).
Qed.

(** The interlanguage append adds no visited address. *)
Lemma append_multilingual_url_unvisited (soup : Tag) (default_culture : string)
    (next_urls visited_urls : list pyval) (u : pyval) :
  u ∈ append_multilingual_url soup default_culture next_urls visited_urls →
  u ∈ next_urls ∨ u ∉ visited_urls.
Proof.
  destruct (append_multilingual_url_cases soup default_culture
              next_urls visited_urls) as [->|(x & Hx & ->)]; [by left|].
  rewrite elem_of_app, list_elem_of_singleton. intros [? | ->]; [by left|by right].
Qed.

(** Whatever loads the overflow table, a refill that returns hands back no
    visited address, and at most a hundred addresses. *)
Lemma select_next_urls_unvisited (load : store → string → result DataFrame)
    (visited_urls : list pyval) (fs fs' : store) (next : list pyval) :
  select_next_urls_with load visited_urls fs = Ok (next, fs') →
  ∀ u, u ∈ next → u ∉ visited_urls.
Proof.
  unfold select_next_urls_with.
  destruct (load fs ALL_URLS_FILE) as [url_df|]; simpl; [|discriminate].
  destruct (column "urls" url_df) as [urls|]; simpl; [|discriminate].
  destruct visited_urls as [|v visited_urls]; simpl.
  - intros _ u _. apply not_elem_of_nil.
  - intros [= <- _] u Hu.
    apply list_elem_of_In, in_map_iff in Hu as (x & <- & Hx).
    apply filter_In in Hx as [_ Hx]. by apply bool_decide_eq_true in Hx.
Qed.

(** ** The crawl loop, step by step *)

Lemma fetch_and_mark_ok (requests_get : string → fetch_outcome)
    (st st1 : crawl_state) (response : Response) :
  fetch_and_mark requests_get st = Ok (response, st1) →
  ∃ url,
    next_urls st !! 0 = Some url
    ∧ requests_get (pystr url) = Fetched response
    ∧ st1 = {| next_urls := next_urls st;
               visited_urls := visited_urls st ++ [url];
               files := files st |}.
Proof.
  unfold fetch_and_mark, Py.index.
  destruct (next_urls st !! 0) as [url|]; simpl; [|discriminate].
  destruct (requests_get (pystr url)) as [r|] eqn:Hget; [|discriminate].
  intros [= <- <-]. by exists url.
Qed.

Lemma process_response_ok
    (page_concepts : Tag → option Tag → DataFrame → string → string
                     → result DataFrame)
    (PERSON_DB : list cell) (response : Response) (st1 st2 : crawl_state) :
  process_response page_concepts PERSON_DB response st1 = Ok st2 →
  visited_urls st2 = visited_urls st1
  ∧ (next_urls st2 = next_urls st1
     ∨ ∃ soup default_culture,
         next_urls st2
         = append_multilingual_url soup default_culture
             (next_urls st1) (visited_urls st1)).
Proof.
  unfold process_response.
  destruct (response_ok response);
    [|intros [= <-]; split; [reflexivity|by left]].
  destruct (page_defaults response) as [[[[soup soup_content] culture] field]|];
    simpl; [|discriminate].
  destruct (extract_and_persist _ _ _ _ _ _ _) as [fs|]; simpl; [|discriminate].
  intros [= <-]. simpl. split; [done|]. right. by exists soup, culture.
Qed.

Lemma advance_ok (load : store → string → result DataFrame)
    (st2 st' : crawl_state) :
  advance load st2 = Ok st' →
  visited_urls st' = visited_urls st2
  ∧ (next_urls st' = drop 1 (next_urls st2)
     ∨ ∀ u, u ∈ next_urls st' → u ∉ visited_urls st2).
Proof.
  unfold advance. destruct (drop 1 (next_urls st2)) as [|u rest] eqn:Hdrop.
  - destruct (select_next_urls_with load _ _) as [[next fs]|] eqn:Hsel; simpl;
      [|discriminate].
    intros [= <-]. simpl. split; [done|]. right.
    by eapply select_next_urls_unvisited.
  - intros [= <-]. simpl. split; [done|]. by left.
Qed.

(** The state first built has visited nothing. *)
Lemma initial_state_unvisited (shuffle : list pyval → list pyval)
    (fs : store) (st0 : crawl_state) :
  initial_state shuffle fs = Ok st0 → frontier_disjoint st0.
Proof.
  unfold initial_state.
  destruct (read_csv fs START_URLS_FILE) as [df|]; simpl; [|discriminate].
  destruct (column "urls" df) as [urls|]; simpl; [|discriminate].
  intros [= <-] u Hu. simpl in Hu. by apply elem_of_nil in Hu.
Qed.

(** An iteration records exactly the address it fetched. *)
Lemma crawl_iteration_visited
    (requests_get : string → fetch_outcome)
    (page_concepts : Tag → option Tag → DataFrame → string → string
                     → result DataFrame)
    (load : store → string → result DataFrame) (PERSON_DB : list cell)
    (st st' : crawl_state) :
  crawl_iteration requests_get page_concepts load PERSON_DB st = Ok st' →
  visited_urls st' = visited_urls st ++ take 1 (next_urls st).
Proof.
  unfold crawl_iteration. intros Hit.
  destruct (fetch_and_mark requests_get st) as [[response st1]|] eqn:Hfetch;
    simpl in Hit; [|discriminate].
  destruct (process_response page_concepts PERSON_DB response st1)
    as [st2|] eqn:Hproc; simpl in Hit; [|discriminate].
  apply fetch_and_mark_ok in Hfetch as (url & Hhead & _ & ->).
  apply process_response_ok in Hproc as [Hv2 _].
  apply advance_ok in Hit as [-> _]. rewrite Hv2. simpl.
  destruct (next_urls st) as [|head queue]; [discriminate|].
  simpl in Hhead. injection Hhead as ->. reflexivity.
Qed.

(** Nothing leaves the visited list during a run. *)
Lemma crawl_loop_visited_grows
    (requests_get : string → fetch_outcome)
    (page_concepts : Tag → option Tag → DataFrame → string → string
                     → result DataFrame)
    (load : store → string → result DataFrame) (PERSON_DB : list cell)
    (n : nat) (st st' : crawl_state) (u : pyval) :
  crawl_loop requests_get page_concepts load PERSON_DB n st = Ok st' →
  u ∈ visited_urls st → u ∈ visited_urls st'.
Proof.
  revert st. induction n as [|n IH]; intros st; simpl.
  - by intros [= <-].
  - destruct (crawl_iteration requests_get page_concepts load PERSON_DB st)
      as [st1|] eqn:Hit; simpl; [|discriminate].
    intros Hloop Hu. apply (IH st1 Hloop).
    rewrite (crawl_iteration_visited _ _ _ _ _ _ Hit).
    apply elem_of_app. by left.
Qed.

(** ** The frontier invariant *)

(** C2, as stated, fails.  The head of the queue is recorded as visited
    while it is still the head (it leaves the queue at the end of the
    iteration); and when an address stands twice in the queue, its second
    copy stays queued after the first was visited. *)
Lemma visited_head_still_queued :
  fetch_and_mark all_missing (start_at [PStr sake_url])
  = Ok (mkResponse 404 [],
        {| next_urls := [PStr sake_url];
           visited_urls := [PStr sake_url];
           files := ∅ |})
  ∧ crawl_iteration all_missing no_concepts read_csv []
      (start_at [PStr sake_url; PStr sake_url])
    = Ok {| next_urls := [PStr sake_url];
            visited_urls := [PStr sake_url];
            files := ∅ |}.
Proof. split; vm_compute; reflexivity. Qed.

(** C2, amended: no address already visited is ever added to the active
    queue.  After an iteration the visited list has grown by the address
    fetched, and every address of the queue either was in the queue behind
    the head or is not visited; the state first built has visited nothing.
    (Disjointness itself does not hold at every step.) *)
Theorem queue_additions_unvisited
    (requests_get : string → fetch_outcome)
    (page_concepts : Tag → option Tag → DataFrame → string → string
                     → result DataFrame)
    (load : store → string → result DataFrame) (PERSON_DB : list cell)
    (st st' : crawl_state) :
  crawl_iteration requests_get page_concepts load PERSON_DB st = Ok st' →
  visited_urls st' = visited_urls st ++ take 1 (next_urls st)
  ∧ (∀ u, u ∈ next_urls st' →
          u ∈ drop 1 (next_urls st) ∨ u ∉ visited_urls st')
  ∧ (∀ shuffle fs st0, initial_state shuffle fs = Ok st0 → frontier_disjoint st0).
Proof.
  unfold crawl_iteration. intros Hit.
  destruct (fetch_and_mark requests_get st) as [[response st1]|] eqn:Hfetch;
    simpl in Hit; [|discriminate].
  destruct (process_response page_concepts PERSON_DB response st1)
    as [st2|] eqn:Hproc; simpl in Hit; [|discriminate].
  apply fetch_and_mark_ok in Hfetch as (url & Hhead & _ & ->).
  apply process_response_ok in Hproc as [Hv2 Hq2]. simpl in Hv2, Hq2.
  apply advance_ok in Hit as [Hv' Hq'].
  destruct (next_urls st) as [|url' queue] eqn:Hqueue; [discriminate|].
  simpl in Hhead. injection Hhead as ->.
  rewrite Hv', Hv2. split; [reflexivity|].
  split; [|intros shuffle fs st0; apply initial_state_unvisited].
  intros u Hu. destruct Hq' as [Hq'|Hq']; [|right; rewrite <- Hv2; by apply Hq'].
  rewrite Hq' in Hu. destruct Hq2 as [Hq2|(soup & culture & Hq2)].
  - left. by rewrite Hq2 in Hu.
  - rewrite Hq2 in Hu.
    destruct (append_multilingual_url_cases soup culture (url :: queue)
                (visited_urls st ++ [url])) as [Heq|(x & Hx & Heq)];
      rewrite Heq in Hu; simpl in Hu; [by left|].
    apply elem_of_app in Hu as [Hu|Hu]; [by left|].
    apply list_elem_of_singleton in Hu as ->. by right.
Qed.

Lemma queue_additions_unvisited_witness :
  visited_urls (mkState [PStr sake_url] [PStr sake_url] ∅)
  = visited_urls (start_at [PStr sake_url; PStr sake_url])
    ++ take 1 (next_urls (start_at [PStr sake_url; PStr sake_url]))
  ∧ (∀ u, u ∈ next_urls (mkState [PStr sake_url] [PStr sake_url] ∅) →
          u ∈ drop 1 (next_urls (start_at [PStr sake_url; PStr sake_url]))
          ∨ u ∉ visited_urls (mkState [PStr sake_url] [PStr sake_url] ∅))
  ∧ (∀ shuffle fs st0, initial_state shuffle fs = Ok st0 → frontier_disjoint st0).
Proof.
  apply (queue_additions_unvisited all_missing no_concepts read_csv []
           (start_at [PStr sake_url; PStr sake_url])).
  vm_compute. reflexivity.
Defined.

(** ** Failed fetches *)

(** C6, as stated, fails for a network error and for an empty body: the
    first raises out of the fetch before the address is recorded and ends
    the run, the second passes the status test and the page is processed,
    which raises at the missing heading. *)
Lemma network_error_and_empty_body_raise :
  fetch_and_mark offline (start_at [PStr sake_url]) = Raise ConnectionError
  ∧ crawl_iteration offline no_concepts read_csv []
      (start_at [PStr sake_url; PStr sake_url]) = Raise ConnectionError
  ∧ response_ok (mkResponse 200 []) = true
  ∧ page_defaults (mkResponse 200 []) = Raise IndexError
  ∧ crawl_iteration (fun _ => Fetched (mkResponse 200 [])) no_concepts read_csv []
      (start_at [PStr sake_url; PStr sake_url]) = Raise IndexError.
Proof. repeat split; vm_compute; reflexivity. Qed.

(** C6, amended: when the fetch of the head of the queue returns a
    response with an error status, the address is recorded as visited, no
    extraction or persistence step runs (queue and files are left as they
    were), and from then on, the address being visited, neither the
    interlanguage append nor a refill puts it into the queue. *)
Theorem error_status_skips_page
    (requests_get : string → fetch_outcome)
    (page_concepts : Tag → option Tag → DataFrame → string → string
                     → result DataFrame)
    (PERSON_DB : list cell) (st : crawl_state) (url : pyval)
    (response : Response) :
  next_urls st !! 0 = Some url →
  requests_get (pystr url) = Fetched response →
  response_ok response = false →
  ∃ st1,
    fetch_and_mark requests_get st = Ok (response, st1)
    ∧ visited_urls st1 = visited_urls st ++ [url]
    ∧ next_urls st1 = next_urls st
    ∧ files st1 = files st
    ∧ process_response page_concepts PERSON_DB response st1 = Ok st1
    ∧ (∀ visited soup culture queue,
         url ∈ visited →
         url ∈ append_multilingual_url soup culture queue visited →
         url ∈ queue)
    ∧ (∀ visited load fs next fs',
         url ∈ visited →
         select_next_urls_with load visited fs = Ok (next, fs') →
         url ∉ next).
Proof.
  intros Hhead Hget Hbad.
  exists {| next_urls := next_urls st;
            visited_urls := visited_urls st ++ [url];
            files := files st |}.
  simpl. repeat split.
  - unfold fetch_and_mark, Py.index. rewrite Hhead. simpl. by rewrite Hget.
  - unfold process_response. by rewrite Hbad.
  - intros visited soup culture queue Hvisited
      [?|Hnot]%append_multilingual_url_unvisited; [done|by destruct Hnot].
  - intros visited load fs next fs' Hvisited Hsel Hin.
    by eapply select_next_urls_unvisited.
Qed.

Lemma error_status_skips_page_witness :
  ∃ st1,
    fetch_and_mark all_missing (start_at [PStr sake_url]) = Ok (mkResponse 404 [], st1)
    ∧ visited_urls st1 = visited_urls (start_at [PStr sake_url]) ++ [PStr sake_url]
    ∧ next_urls st1 = next_urls (start_at [PStr sake_url])
    ∧ files st1 = files (start_at [PStr sake_url])
    ∧ process_response no_concepts [] (mkResponse 404 []) st1 = Ok st1
    ∧ (∀ visited soup culture queue,
         PStr sake_url ∈ visited →
         PStr sake_url ∈ append_multilingual_url soup culture queue visited →
         PStr sake_url ∈ queue)
    ∧ (∀ visited load fs next fs',
         PStr sake_url ∈ visited →
         select_next_urls_with load visited fs = Ok (next, fs') →
         PStr sake_url ∉ next).
Proof.
  apply (error_status_skips_page all_missing no_concepts []
           (start_at [PStr sake_url]) (PStr sake_url) (mkResponse 404 []));
    reflexivity.
Defined.

(** ** Refill and exhaustion *)

(** With the table loader repaired to [pd.read_csv], the refill hands back
    at most a hundred addresses, takes them from the head of the overflow
    table and leaves the rest there. *)
Lemma select_next_urls_read_csv (visited_urls : list pyval) (fs : store)
    (f : csv_file) (urls : list cell) :
  fs !! ALL_URLS_FILE = Some f →
  column "urls" (parse_csv f) = Ok urls →
  visited_urls ≠ [] →
  select_next_urls_with read_csv visited_urls fs
  = Ok (map PStr
          (List.filter (fun u => bool_decide (PStr u ∉ visited_urls))
             (map (fun url => base_url +:+ cell_str url) (take 100 urls))),
        <[ALL_URLS_FILE :=
            mkCsv ["urls"] (map (fun c => [field_text c]) (drop 100 urls))]> fs).
Proof.
  intros Hf Hcol Hv. unfold select_next_urls_with, read_csv. rewrite Hf. simpl.
  rewrite Hcol. simpl. destruct visited_urls as [|v vs]; [done|]. simpl.
  unfold to_csv, render_csv. simpl. by rewrite map_map.
Qed.

(** C8: the refill of the source raises on every call, because it loads
    the overflow table through a function that pandas does not have.  With
    the loader repaired, and some address visited, every entry is prefixed
    with the base address, absolute ones too; only with nothing visited are
    absolute entries left as they are. *)
Theorem select_next_urls_to_jump_to_raises (visited_urls : list pyval)
    (fs : store) :
  select_next_urls_to_jump_to visited_urls fs = Raise AttributeError
  ∧ select_next_urls_with read_csv [PStr sake_url] overflow_store
    = Ok ([PStr "https://en.wikipedia.org//wiki/Beer";
           PStr "https://en.wikipedia.org/https://de.wikipedia.org/wiki/Bier"],
          {[ ALL_URLS_FILE := mkCsv ["urls"] [] ]})
  ∧ select_next_urls_with read_csv [] overflow_store
    = Ok ([PStr "https://en.wikipedia.org//wiki/Beer";
           PStr "https://de.wikipedia.org/wiki/Bier"],
          {[ ALL_URLS_FILE := mkCsv ["urls"] [] ]}).
Proof. repeat split; vm_compute; reflexivity. Qed.

(** The loop body has no test for an empty queue: its first statement
    indexes the queue. *)
Lemma crawl_iteration_empty_queue
    (requests_get : string → fetch_outcome)
    (page_concepts : Tag → option Tag → DataFrame → string → string
                     → result DataFrame)
    (load : store → string → result DataFrame) (PERSON_DB : list cell)
    (st : crawl_state) :
  next_urls st = [] →
  crawl_iteration requests_get page_concepts load PERSON_DB st = Raise IndexError.
Proof.
  intros Hq. unfold crawl_iteration, fetch_and_mark, Py.index. by rewrite Hq.
Qed.

(** C7: a run from a single seed whose page is missing.  The queue is
    empty after the first iteration; the refill raises, so the run ends
    with an [AttributeError].  With the loader repaired the refill returns
    no address and the next iteration raises an [IndexError] at the head of
    the empty queue. *)
Theorem crawl_raises_on_exhausted_frontier
    (page_concepts : Tag → option Tag → DataFrame → string → string
                     → result DataFrame) :
  main all_missing keep_order page_concepts one_seed_store
  = Raise AttributeError
  ∧ run read_csv all_missing keep_order page_concepts one_seed_store
    = Raise IndexError.
Proof. split; vm_compute; reflexivity. Qed.

(** * Further properties *)

(** ** Merging tables *)

Lemma drop_dup_go_sublist (key : list cell → list cell)
    (s : list (list cell)) (l : list (list cell)) :
  drop_dup_go key s l `sublist_of` l.
Proof.
  revert s. induction l as [|r l IH]; intros s; simpl; [constructor|].
  case_bool_decide; [apply sublist_cons, IH|apply sublist_skip, IH].
Qed.

Lemma ascending_shift (idx : list nat) :
  ascending idx → ascending (S <$> idx).
Proof.
  intros Hidx a b i j Ha Hb Hab.
  apply list_lookup_fmap_Some in Ha as (i' & -> & Ha).
  apply list_lookup_fmap_Some in Hb as (j' & -> & Hb).
  apply ->Nat.succ_lt_mono. by eapply Hidx.
Qed.

Lemma ascending_first (idx : list nat) :
  ascending idx → ascending (0 :: (S <$> idx)).
Proof.
  intros Hidx%ascending_shift a b i j Ha Hb Hab.
  destruct a as [|a], b as [|b]; simpl in Ha, Hb; [lia| |lia|].
  - injection Ha as <-.
    apply list_lookup_fmap_Some in Hb as (j' & -> & _). lia.
  - apply (Hidx a b); [done|done|lia].
Qed.

(** The rows kept stand at the positions whose key is new: neither seen
    before the scan nor met earlier in it. *)
Lemma drop_dup_go_positions (key : list cell → list cell)
    (seen : list (list cell)) (l : list (list cell)) :
  ∃ idx,
    rows_at l idx (drop_dup_go key seen l)
    ∧ ∀ i, i ∈ idx ↔
           ∃ r, l !! i = Some r
                ∧ key r ∉ seen
                ∧ ∀ j r', j < i → l !! j = Some r' → key r' ≠ key r.
Proof.
  revert seen. induction l as [|r l IH]; intros seen; simpl.
  - exists []. split; [split; [by intros a b i j [=]|constructor]|].
    intros i. split; [by intros ?%elem_of_nil|by intros (x & [=] & _)].
  - case_bool_decide as Hseen.
    + destruct (IH seen) as (idx & [Hasc Hrows] & Hidx).
      exists (S <$> idx). split; [split|].
      * by apply ascending_shift.
      * by apply Forall2_fmap_l.
      * intros i. rewrite list_elem_of_fmap. split.
        -- intros (i' & -> & (x & Hx & Hnew & Hfirst)%Hidx).
           exists x. split; [done|]. split; [done|].
           intros [|j] r' Hj Hr'; simpl in Hr'.
           ++ injection Hr' as <-. congruence.
           ++ apply (Hfirst j); [lia|done].
        -- intros (x & Hx & Hnew & Hfirst). destruct i as [|i]; simpl in Hx.
           ++ injection Hx as <-. done.
           ++ exists i. split; [done|]. apply Hidx. exists x.
              split; [done|]. split; [done|].
              intros j r' Hj Hr'. apply (Hfirst (S j)); [lia|done].
    + destruct (IH (key r :: seen)) as (idx & [Hasc Hrows] & Hidx).
      exists (0 :: (S <$> idx)). split; [split|].
      * by apply ascending_first.
      * constructor; [done|]. by apply Forall2_fmap_l.
      * intros i. rewrite elem_of_cons, list_elem_of_fmap. split.
        -- intros [-> | (i' & -> & (x & Hx & Hnew & Hfirst)%Hidx)].
           ++ exists r. split; [done|]. split; [done|]. intros j r' Hj. lia.
           ++ apply not_elem_of_cons in Hnew as [Hne Hnew].
              exists x. split; [done|]. split; [done|].
              intros [|j] r' Hj Hr'; simpl in Hr'.
              ** injection Hr' as <-. congruence.
              ** apply (Hfirst j); [lia|done].
        -- intros (x & Hx & Hnew & Hfirst). destruct i as [|i]; simpl in Hx.
           ++ by left.
           ++ right. exists i. split; [done|]. apply Hidx. exists x.
              split; [done|]. split.
              ** apply not_elem_of_cons. split; [|done].
                 intros Heq. by apply (Hfirst 0 r); [lia| |].
              ** intros j r' Hj Hr'. apply (Hfirst (S j)); [lia|done].
Qed.

(** X1: over two tables with distinct column names, the first with at
    least one column, [concat_and_filter_unique_values] returns the
    columns of the first table followed by those only the second has, and
    its rows are, in order, the rows of the concatenation that stand at
    the first position of their key over the first table's columns.  So no
    two rows of the result have one key, and every row of the
    concatenation has its key in the result. *)
Theorem concat_and_filter_unique_values_keys (old new : DataFrame) :
  columns old ≠ [] →
  NoDup (columns old) →
  NoDup (columns new) →
  columns (concat_and_filter_unique_values old new)
  = columns old
    ++ List.filter (fun c => bool_decide (c ∉ columns old)) (columns new)
  ∧ (∃ idx,
       rows_at (rows (concat old new)) idx
         (rows (concat_and_filter_unique_values old new))
       ∧ ∀ i, i ∈ idx ↔
              first_of_key (merge_key old new) (rows (concat old new)) i)
  ∧ NoDup (map (merge_key old new)
             (rows (concat_and_filter_unique_values old new)))
  ∧ (∀ r, r ∈ rows (concat old new) →
          merge_key old new r
          ∈ map (merge_key old new)
              (rows (concat_and_filter_unique_values old new))).
Proof.
  intros _ _ _. unfold concat_and_filter_unique_values, drop_duplicates. simpl.
  split; [reflexivity|]. split; [|split; [apply drop_dup_go_NoDup|]].
  - destruct (drop_dup_go_positions (merge_key old new) []
                (rows (concat old new))) as (idx & Hrows & Hidx).
    exists idx. split; [exact Hrows|].
    intros i. rewrite Hidx. unfold first_of_key. split.
    + intros (r & Hr & _ & Hfirst). by exists r.
    + intros (r & Hr & Hfirst). exists r.
      split; [done|]. split; [apply not_elem_of_nil|done].
  - intros r Hr.
    destruct (drop_dup_go_cover (merge_key old new) [] _ r Hr) as [Hs|Hd];
      [by apply elem_of_nil in Hs|exact Hd].
Qed.

Lemma concat_and_filter_unique_values_keys_witness :
  columns (concat_and_filter_unique_values sakura_german sakura_chinese)
  = columns sakura_german
    ++ List.filter (fun c => bool_decide (c ∉ columns sakura_german))
         (columns sakura_chinese)
  ∧ (∃ idx,
       rows_at (rows (concat sakura_german sakura_chinese)) idx
         (rows (concat_and_filter_unique_values sakura_german sakura_chinese))
       ∧ ∀ i, i ∈ idx ↔
              first_of_key (merge_key sakura_german sakura_chinese)
                (rows (concat sakura_german sakura_chinese)) i)
  ∧ NoDup (map (merge_key sakura_german sakura_chinese)
             (rows (concat_and_filter_unique_values
                      sakura_german sakura_chinese)))
  ∧ (∀ r, r ∈ rows (concat sakura_german sakura_chinese) →
          merge_key sakura_german sakura_chinese r
          ∈ map (merge_key sakura_german sakura_chinese)
              (rows (concat_and_filter_unique_values
                       sakura_german sakura_chinese))).
Proof.
  apply (concat_and_filter_unique_values_keys sakura_german sakura_chinese);
    [discriminate|apply (bool_decide_unpack _); vm_compute; exact I..].
Defined.

(** ** Writing a merged table *)



(** ** [merge_csvs] *)






(** ** Italic terms *)

Lemma lower_char_alpha (c : ascii) :
  Py.isalpha_char c = true →
  Py.isalpha_char (Py.lower_char c) = true
  ∧ Py.lower_char (Py.lower_char c) = Py.lower_char c.
Proof.
  destruct c as [[] [] [] [] [] [] [] []]; vm_compute; intros; by split.
Qed.

Lemma lower_all_alpha (s : string) :
  Py.all_chars Py.isalpha_char s = true →
  Py.all_chars Py.isalpha_char (Py.lower s) = true
  ∧ Py.lower (Py.lower s) = Py.lower s
  ∧ Py.len (Py.lower s) = Py.len s.
Proof.
  induction s as [|c s IH]; simpl; [done|].
  intros [Hc Hs]%andb_prop.
  destruct (lower_char_alpha c Hc) as [Ha Hi].
  destruct (IH Hs) as (Hs1 & Hs2 & Hs3).
  rewrite Ha, Hs1, Hi, Hs2. unfold Py.len in *. simpl. by rewrite Hs3.
Qed.

Lemma lower_alpha (s : string) :
  Py.isalpha s = true →
  Py.isalpha (Py.lower s) = true
  ∧ Py.lower (Py.lower s) = Py.lower s
  ∧ Py.len (Py.lower s) = Py.len s.
Proof.
  destruct s as [|c s]; [discriminate|].
  intros H. apply (lower_all_alpha (String c s)) in H as (H1 & H2 & H3).
  split; [exact H1|by split].
Qed.

Lemma set_add_NoDup (x : string) (s : list string) :
  NoDup s → NoDup (set_add x s).
Proof.
  intros Hs. unfold set_add. case_bool_decide as Hx; [done|].
  apply NoDup_app. split; [done|]. split; [|apply NoDup_singleton].
  intros y Hy ->%list_elem_of_singleton. done.
Qed.

Lemma foldl_add_italic (tags : list Tag) (acc : list string) :
  (NoDup acc → NoDup (foldl add_italic acc tags))
  ∧ ∀ c, c ∈ foldl add_italic acc tags ↔
         c ∈ acc
         ∨ ∃ tag, tag ∈ tags
             ∧ Py.isalpha (italic_phrase tag) = true
             ∧ 1 < Py.len (italic_phrase tag)
             ∧ c = Py.lower (italic_phrase tag).
Proof.
  revert acc. induction tags as [|t tags IH]; intros acc; simpl.
  - split; [done|]. intros c. split; [by left|].
    intros [?|(tag & Ht & _)]; [done|by apply elem_of_nil in Ht].
  - destruct (IH (add_italic acc t)) as [Hnd Hin]. split.
    + intros Hacc. apply Hnd. unfold add_italic.
      destruct (_ && _); [by apply set_add_NoDup|done].
    + intros c. rewrite Hin. unfold add_italic at 1.
      fold (italic_phrase t).
      destruct (Py.isalpha (italic_phrase t)
                && bool_decide (1 < Py.len (italic_phrase t))) eqn:Hcond.
      * apply andb_prop in Hcond as [Ha Hl]. apply bool_decide_eq_true in Hl.
        rewrite set_add_elem. split.
        -- intros [[-> | ?]|(tag & Ht & Hrest)]; [right|by left|right].
           ++ exists t. split; [by left|done].
           ++ exists tag. split; [by right|done].
        -- intros [?|(tag & [-> | Ht]%elem_of_cons & Ha' & Hl' & ->)].
           ++ left. by right.
           ++ left. by left.
           ++ right. by exists tag.
      * split.
        -- intros [?|(tag & Ht & Hrest)]; [by left|].
           right. exists tag. split; [by right|done].
        -- intros [?|(tag & [-> | Ht]%elem_of_cons & Ha' & Hl' & ->)];
             [by left| |right; by exists tag].
           rewrite Ha' in Hcond. simpl in Hcond.
           by apply bool_decide_eq_false in Hcond.
Qed.

(** X4: over a body whose [<i>] elements hold ASCII text,
    [get_all_italic_words] returns one column of distinct concepts; a
    text is among them exactly when it is the lower-case form of the
    stripped text of some [<i>] element that is alphabetic and longer than
    one character, and every concept returned is itself alphabetic, longer
    than one character and in lower case. *)
Theorem get_all_italic_words_spec (soup_content : Tag) :
  italics_ascii soup_content = true →
  columns (get_all_italic_words soup_content) = ["concepts"]
  ∧ NoDup (rows (get_all_italic_words soup_content))
  ∧ (∀ r, r ∈ rows (get_all_italic_words soup_content) →
          ∃ c, r = [Str c] ∧ Py.isalpha c = true ∧ 1 < Py.len c
               ∧ Py.lower c = c)
  ∧ (∀ c, [Str c] ∈ rows (get_all_italic_words soup_content) ↔
          ∃ tag, tag ∈ find_all "i" soup_content
              ∧ Py.isalpha (italic_phrase tag) = true
              ∧ 1 < Py.len (italic_phrase tag)
              ∧ c = Py.lower (italic_phrase tag)).
Proof.
  intros _. unfold get_all_italic_words, single_column. simpl.
  destruct (foldl_add_italic (find_all "i" soup_content) []) as [Hnd Hin].
  assert (Hrow : ∀ c words, [Str c] ∈ map (fun v => [Str v]) words ↔ c ∈ words).
  { intros c words. rewrite list_elem_of_In, in_map_iff. split.
    - intros (v & [= ->] & Hv). by apply list_elem_of_In.
    - intros Hc. exists c. split; [done|by apply list_elem_of_In]. }
  split; [reflexivity|]. split; [|split].
  - change (map ?f ?l) with (f <$> l). apply NoDup_fmap_2; [|apply Hnd; constructor].
    by intros x y [= ->].
  - intros r Hr. apply list_elem_of_In, in_map_iff in Hr as (c & <- & Hc).
    apply list_elem_of_In, Hin in Hc as [Hc|(tag & _ & Ha & Hl & ->)];
      [by apply elem_of_nil in Hc|].
    destruct (lower_alpha _ Ha) as (H1 & H2 & H3).
    exists (Py.lower (italic_phrase tag)). rewrite H3. by repeat split.
  - intros c. rewrite Hrow, Hin. split; [|by right].
    intros [Hc|?]; [by apply elem_of_nil in Hc|done].
Qed.

Lemma get_all_italic_words_spec_witness :
  columns (get_all_italic_words italic_body) = ["concepts"]
  ∧ NoDup (rows (get_all_italic_words italic_body))
  ∧ (∀ r, r ∈ rows (get_all_italic_words italic_body) →
          ∃ c, r = [Str c] ∧ Py.isalpha c = true ∧ 1 < Py.len c
               ∧ Py.lower c = c)
  ∧ (∀ c, [Str c] ∈ rows (get_all_italic_words italic_body) ↔
          ∃ tag, tag ∈ find_all "i" italic_body
              ∧ Py.isalpha (italic_phrase tag) = true
              ∧ 1 < Py.len (italic_phrase tag)
              ∧ c = Py.lower (italic_phrase tag)).
Proof.
  apply (get_all_italic_words_spec italic_body). reflexivity.
Defined.

(** ** Reference names *)

(** X5: the place test never raises and skips entries that are not text;
    the person test of the crawl stage raises at such an entry.  Whenever
    the person test returns over a list of entries, the place test over
    the same list gives the same answer; when it raises, it raises an
    [AttributeError] and the list holds an entry that is not text. *)
Theorem person_and_location_tests_agree (db : list cell) (caption : cell) :
  match ConceptExtraction.contains_person_name db caption with
  | Ok b => contains_location db caption = b
  | Raise e => e = AttributeError ∧ NaN ∈ db
  end.
Proof.
  destruct caption as [s|]; simpl; [|reflexivity].
  induction db as [|[name|] db IH]; simpl; [reflexivity| |].
  - destruct (ConceptExtraction.all_in (Py.split name) (Py.split s));
      [reflexivity|].
    destruct (ConceptExtraction.person_loop (Py.split s) db);
      [exact IH|].
    destruct IH as [-> Hin]. split; [reflexivity|by right].
  - split; [reflexivity|by left].
Qed.




(** X7: without a names file the list of names is empty and no caption is
    taken for a person or a place, at either stage; nothing raises. *)
Theorem absent_names_file (fs : store) (path : string) (caption : cell) :
  fs !! path = None →
  ConceptExtraction.get_data_from_db fs path = Ok []
  ∧ (db ← ConceptExtraction.get_data_from_db fs path;
     ConceptExtraction.contains_person_name db caption) = Ok false
  ∧ (db ← ConceptFiltering.get_data_from_db fs path;
     ConceptFiltering.contains_person_name db caption) = Ok false
  ∧ (db ← ConceptExtraction.get_data_from_db fs path;
     mret (contains_location db caption)) = Ok false.
Proof.
  intros Hf.
  unfold ConceptFiltering.get_data_from_db, ConceptExtraction.get_data_from_db.
  rewrite Hf. simpl. by destruct caption.
Qed.

Lemma absent_names_file_witness :
  ConceptExtraction.get_data_from_db one_seed_store "data/name_db.csv" = Ok []
  ∧ (db ← ConceptExtraction.get_data_from_db one_seed_store "data/name_db.csv";
     ConceptExtraction.contains_person_name db (Str "leonardo da vinci"))
    = Ok false
  ∧ (db ← ConceptFiltering.get_data_from_db one_seed_store "data/name_db.csv";
     ConceptFiltering.contains_person_name db (Str "leonardo da vinci"))
    = Ok false
  ∧ (db ← ConceptExtraction.get_data_from_db one_seed_store "data/name_db.csv";
     mret (contains_location db (Str "leonardo da vinci"))) = Ok false.
Proof.
  apply (absent_names_file one_seed_store "data/name_db.csv"
           (Str "leonardo da vinci")).
  reflexivity.
Defined.

(** ** Default labels *)

Lemma dict_get_value {V} (d : list (string * V)) (k : string) (v : V) :
  Py.dict_get d k = Some v → (k, v) ∈ d.
Proof.
  induction d as [|[k' v'] d IH]; simpl; [discriminate|].
  destruct (Py.dict_get d k) as [v0|].
  - intros [= ->]. right. by apply IH.
  - case_bool_decide as Hk; [|discriminate]. intros [= ->]. subst. by left.
Qed.

Lemma dict_get_key {V} (d : list (string * V)) (k : string) (v : V) :
  (k, v) ∈ d → is_Some (Py.dict_get d k).
Proof.
  induction d as [|[k' v'] d IH]; [by rewrite elem_of_nil|].
  rewrite elem_of_cons. simpl. intros [[= <- <-]|Hin].
  - destruct (Py.dict_get d k); [by eexists|].
    rewrite bool_decide_eq_true_2 by done. by eexists.
  - destruct (IH Hin) as [v0 ->]. by eexists.
Qed.

(** The scan of a lexicon gives the empty text when no key occurs in the
    text, and otherwise a value of the lexicon. *)
Lemma first_keyword_spec (d rest : list (string * string)) (text : string) :
  (∀ kv, kv ∈ rest → kv ∈ d) →
  (first_keyword d rest text = ""
   ∧ ∀ kv, kv ∈ rest → Py.contains kv.1 text = false)
  ∨ (∃ k v, (k, v) ∈ d ∧ Py.contains k text = true
            ∧ first_keyword d rest text = v).
Proof.
  induction rest as [|[k v] rest IH]; intros Hsub; simpl.
  - left. split; [done|]. intros kv Hkv. by apply elem_of_nil in Hkv.
  - destruct (Py.contains k text) eqn:Hk.
    + right. destruct (dict_get_key d k v) as [v0 Hv0]; [apply Hsub; by left|].
      exists k, v0. rewrite Hv0. split; [by apply dict_get_value|done].
    + destruct IH as [[Hempty Hnone]|Hfound];
        [intros kv Hkv; apply Hsub; by right| |by right].
      left. split; [done|].
      intros kv [-> | Hkv]%elem_of_cons; [done|by apply Hnone].
Qed.

Lemma first_keyword_range (labels : list string)
    (d : list (string * string)) (text : string) :
  "" ∉ labels →
  (∀ kv, kv ∈ d → kv.2 ∈ labels) →
  first_keyword d d text ∈ "" :: labels
  ∧ (first_keyword d d text = "" ↔
     ∀ kv, kv ∈ d → Py.contains kv.1 text = false).
Proof.
  intros Hlab Hd.
  destruct (first_keyword_spec d d text) as [[-> Hnone]|(k & v & Hkv & Hk & ->)];
    [done| |].
  - split; [by left|]. by split.
  - split; [right; apply (Hd (k, v) Hkv)|]. split.
    + intros ->. destruct Hlab. apply (Hd (k, "") Hkv).
    + intros Hnone. specialize (Hnone (k, v) Hkv). simpl in Hnone. congruence.
Qed.

Lemma CULTURES_labels :
  ("" ∉ culture_labels) ∧ ∀ kv, kv ∈ CULTURES → kv.2 ∈ culture_labels.
Proof.
  split.
  - apply (bool_decide_unpack ("" ∉ culture_labels)). vm_compute. exact I.
  - apply Forall_forall.
    apply (bool_decide_unpack (Forall (fun kv : string * string =>
                                         kv.2 ∈ culture_labels) CULTURES)).
    vm_compute. exact I.
Qed.

Lemma SEMANTIC_FIELDS_labels :
  ("" ∉ field_labels) ∧ ∀ kv, kv ∈ SEMANTIC_FIELDS → kv.2 ∈ field_labels.
Proof.
  split.
  - apply (bool_decide_unpack ("" ∉ field_labels)). vm_compute. exact I.
  - apply Forall_forall.
    apply (bool_decide_unpack (Forall (fun kv : string * string =>
                                         kv.2 ∈ field_labels) SEMANTIC_FIELDS)).
    vm_compute. exact I.
Qed.

(** X8: the default culture of a title is empty or one of german, spanish,
    chinese, korean, and the default semantic field is empty or one of the
    twelve field names; either is empty exactly when no keyword of its
    lexicon occurs in the title. *)
Theorem default_labels_range (title : string) :
  (get_default_culture_and_semantic_field title).1 ∈ "" :: culture_labels
  ∧ (get_default_culture_and_semantic_field title).2 ∈ "" :: field_labels
  ∧ ((get_default_culture_and_semantic_field title).1 = "" ↔
     ∀ kv, kv ∈ CULTURES → Py.contains kv.1 title = false)
  ∧ ((get_default_culture_and_semantic_field title).2 = "" ↔
     ∀ kv, kv ∈ SEMANTIC_FIELDS → Py.contains kv.1 title = false).
Proof.
  destruct CULTURES_labels as [Hc0 Hc].
  destruct SEMANTIC_FIELDS_labels as [Hf0 Hf].
  destruct (first_keyword_range culture_labels CULTURES title Hc0 Hc)
    as [H1 H2].
  destruct (first_keyword_range field_labels SEMANTIC_FIELDS title Hf0 Hf)
    as [H3 H4].
  unfold get_default_culture_and_semantic_field. cbn [fst snd].
  exact (conj H1 (conj H3 (conj H2 H4))).
Qed.

(** ** The interlanguage append *)

Lemma lang_get_pair (pairs : list (option string * option string))
    (lang : option string) (href : option string) :
  lang_get pairs lang = Some href → (lang, href) ∈ pairs.
Proof.
  induction pairs as [|[l h] pairs IH]; simpl; [discriminate|].
  destruct (lang_get pairs lang) as [h0|].
  - intros [= ->]. right. by apply IH.
  - case_bool_decide as Hl; [|discriminate]. intros [= ->]. subst. by left.
Qed.

(** X9: [append_multilingual_url] leaves the queue as it is or appends one
    address at its end.  It appends only for a default culture among
    korean, chinese, spanish and german, and the address is the href of an
    interlanguage anchor of the page with that culture's language code,
    not yet visited. *)
Theorem append_multilingual_url_appends_one (soup : Tag)
    (default_culture : string) (next_urls visited_urls : list pyval) :
  append_multilingual_url soup default_culture next_urls visited_urls
  = next_urls
  ∨ ∃ code a,
      default_culture ∈ culture_labels
      ∧ Py.dict_get culture_languages default_culture = Some code
      ∧ a ∈ select_child "li" "interlanguage-link" "a" soup
      ∧ get "lang" a = Some code
      ∧ (of_option (get "href" a) ∉ visited_urls)
      ∧ append_multilingual_url soup default_culture next_urls visited_urls
        = next_urls ++ [of_option (get "href" a)].
Proof.
  unfold append_multilingual_url.
  destruct (Py.dict_get culture_languages default_culture) as [code|] eqn:Hcode;
    [|by left].
  destruct (lang_get _ (Some code)) as [new_link|] eqn:Hlink; [|by left].
  case_bool_decide as Hnew; [|by left].
  right. apply lang_get_pair, list_elem_of_In, in_map_iff in Hlink
    as (a & [= Hlang Hhref] & Ha).
  exists code, a. rewrite Hhref.
  split; [|by repeat split; try apply list_elem_of_In].
  apply dict_get_value in Hcode. unfold culture_languages, culture_labels in *.
  repeat (apply elem_of_cons in Hcode as [[= -> _]|Hcode];
          [by repeat constructor|]).
  by apply elem_of_nil in Hcode.
Qed.

(** ** Outbound links *)

Lemma split_sep_go_single (sep cur s : string) :
  Py.contains sep s = false →
  length (Py.split_sep_go sep 0 cur s) = 1.
Proof.
  revert cur. induction s as [|c s IH]; intros cur; simpl; [done|].
  intros [Hstart Hrest]%orb_false_elim.
  destruct sep as [|a sep]; [discriminate|].
  simpl in Hstart. simpl. rewrite Hstart. by apply IH.
Qed.

(** X10: a current address without the two slashes after the scheme, such
    as a bare path, makes the link extraction raise an [IndexError],
    whatever the page. *)
Theorem extract_link_concepts_and_urls_needs_scheme (soup_content : Tag)
    (current_url : string) :
  Py.contains "//" current_url = false →
  extract_link_concepts_and_urls soup_content current_url = Raise IndexError.
Proof.
  intros Hno. unfold extract_link_concepts_and_urls, Py.index, Py.split_sep.
  pose proof (split_sep_go_single "//" "" current_url Hno) as Hlen.
  destruct (Py.split_sep_go "//" 0 "" current_url) as [|p [|q l]];
    simpl in *; (done || lia).
Qed.

Lemma extract_link_concepts_and_urls_needs_scheme_witness :
  extract_link_concepts_and_urls titled_links_body "/wiki/Japan"
  = Raise IndexError.
Proof.
  apply extract_link_concepts_and_urls_needs_scheme. reflexivity.
Defined.

Lemma internal_content_link_spec (href : option string) (h : string) :
  internal_content_link href = Some h →
  href = Some h
  ∧ Py.startswith "/wiki/" h = true
  ∧ Py.contains ":" h = false
  ∧ Py.contains "(identifier)" h = false.
Proof.
  unfold internal_content_link. destruct href as [h'|]; [|discriminate].
  destruct (_ && _) eqn:Hcond; [|discriminate]. intros [= ->].
  apply andb_prop in Hcond as [Hcond Hid].
  apply andb_prop in Hcond as [Hcond Hcolon].
  apply andb_prop in Hcond as [_ Hstart].
  apply negb_true_iff in Hid, Hcolon. done.
Qed.

(** What the loop over the anchors keeps, whatever the reference section. *)
Lemma link_loop_collects (reference_section : option Tag) (links : list Tag)
    (urls concepts urls' concepts' : list string) :
  link_loop reference_section links urls concepts = Ok (urls', concepts') →
  (NoDup urls → NoDup urls')
  ∧ (NoDup concepts → NoDup concepts')
  ∧ (∀ h, h ∈ urls' →
          h ∈ urls
          ∨ ∃ link, link ∈ links
              ∧ internal_content_link (get "href" (tag_node link)) = Some h)
  ∧ (∀ c, c ∈ concepts' →
          c ∈ concepts
          ∨ ∃ link title, link ∈ links
              ∧ get "title" (tag_node link) = Some title
              ∧ Py.isalpha title = true ∧ 1 < Py.len title
              ∧ c = Py.lower title).
Proof.
  revert urls concepts.
  induction links as [|link links IH]; intros urls concepts; simpl.
  - intros [= <- <-]. by repeat split; auto.
  - destruct (at_cutoff reference_section _) as [[|]|]; simpl;
      [intros [= <- <-]; by repeat split; auto| |discriminate].
    destruct (internal_content_link _) as [h0|] eqn:Hh.
    + destruct (get "title" (tag_node link)) as [title|] eqn:Ht; [|discriminate].
      intros Hloop. apply IH in Hloop as (Hu & Hc & Hin & Hcin).
      split; [intros ?; by apply Hu, set_add_NoDup|].
      split.
      { intros Hnd. apply Hc. destruct (_ && _); [by apply set_add_NoDup|done]. }
      split.
      * intros h [[-> | ?]%set_add_elem|(l & Hl & Hlh)]%Hin.
        -- right. exists link. split; [by left|done].
        -- by left.
        -- right. exists l. split; [by right|done].
      * intros c [Hc0|(l & t & Hl & Hrest)]%Hcin.
        -- destruct (Py.isalpha title && bool_decide (1 < Py.len title))
             eqn:Hcond; [|by left].
           apply set_add_elem in Hc0 as [-> | ?]; [|by left].
           apply andb_prop in Hcond as [Ha Hlen].
           apply bool_decide_eq_true in Hlen.
           right. exists link, title. split; [by left|done].
        -- right. exists l, t. split; [by right|done].
    + intros Hloop. apply IH in Hloop as (Hu & Hc & Hin & Hcin).
      split; [done|]. split; [done|]. split.
      * intros h [?|(l & Hl & Hlh)]%Hin; [by left|].
        right. exists l. split; [by right|done].
      * intros c [?|(l & t & Hl & Hrest)]%Hcin; [by left|].
        right. exists l, t. split; [by right|done].
Qed.

(** X11: over a body whose anchors have ASCII titles, when the link
    extraction returns, its two tables hold no row twice; every address
    returned is the href of an anchor of the body, starts with /wiki/ and
    contains neither a colon nor (identifier); every concept returned is
    alphabetic, longer than one character and in lower case. *)
Theorem extract_link_concepts_and_urls_output (soup_content : Tag)
    (current_url : string) (urls concepts : DataFrame) :
  titles_ascii soup_content = true →
  extract_link_concepts_and_urls soup_content current_url
  = Ok (urls, concepts) →
  columns urls = ["urls"] ∧ columns concepts = ["concepts"]
  ∧ NoDup (rows urls) ∧ NoDup (rows concepts)
  ∧ (∀ r, r ∈ rows urls →
          ∃ h link, r = [Str h]
            ∧ link ∈ find_all "a" soup_content
            ∧ get "href" (tag_node link) = Some h
            ∧ Py.startswith "/wiki/" h = true
            ∧ Py.contains ":" h = false
            ∧ Py.contains "(identifier)" h = false)
  ∧ (∀ r, r ∈ rows concepts →
          ∃ c, r = [Str c] ∧ Py.isalpha c = true ∧ 1 < Py.len c
               ∧ Py.lower c = c).
Proof.
  intros _. unfold extract_link_concepts_and_urls.
  destruct (Py.index _ 1) as [after_scheme|]; [|discriminate].
  unfold mbind at 1, result_bind at 1.
  destruct (Py.dict_get reference_ids (Py.take 2 after_scheme)) as [id|].
  - destruct (link_loop (find_id id soup_content) (find_all "a" soup_content)
                [] []) as [[us cs]|] eqn:Hloop; [|discriminate].
    unfold mbind, result_bind, mret, result_ret.
    intros [= <- <-]. apply link_loop_collects in Hloop as (Hu & Hc & Hin & Hcin).
    unfold single_column. simpl.
    split; [done|]. split; [done|].
    split; [change (map ?f ?l) with (f <$> l);
            apply NoDup_fmap_2; [by intros x y [= ->]|apply Hu; constructor]|].
    split; [change (map ?f ?l) with (f <$> l);
            apply NoDup_fmap_2; [by intros x y [= ->]|apply Hc; constructor]|].
    split.
    + intros r Hr. apply list_elem_of_In, in_map_iff in Hr as (h & <- & Hh).
      apply list_elem_of_In, Hin in Hh as [Hh|(link & Hl & Hlh)];
        [by apply elem_of_nil in Hh|].
      apply internal_content_link_spec in Hlh as (? & ? & ? & ?).
      by exists h, link.
    + intros r Hr. apply list_elem_of_In, in_map_iff in Hr as (c & <- & Hc0).
      apply list_elem_of_In, Hcin in Hc0 as [Hc0|(l & t & _ & _ & Ha & Hlen & ->)];
        [by apply elem_of_nil in Hc0|].
      destruct (lower_alpha _ Ha) as (H1 & H2 & H3).
      exists (Py.lower t). rewrite H3. by repeat split.
  - intros [= <- <-]. unfold single_column. simpl.
    split; [done|]. split; [done|]. split; [constructor|]. split; [constructor|].
    split; intros r Hr; by apply elem_of_nil in Hr.
Qed.

Lemma extract_link_concepts_and_urls_output_witness :
  columns (single_column "urls" ["/wiki/Sake"; "/wiki/Sake_(drink)"]) = ["urls"]
  ∧ columns (single_column "concepts" ["sake"]) = ["concepts"]
  ∧ NoDup (rows (single_column "urls" ["/wiki/Sake"; "/wiki/Sake_(drink)"]))
  ∧ NoDup (rows (single_column "concepts" ["sake"]))
  ∧ (∀ r, r ∈ rows (single_column "urls" ["/wiki/Sake"; "/wiki/Sake_(drink)"]) →
          ∃ h link, r = [Str h]
            ∧ link ∈ find_all "a" titled_links_body
            ∧ get "href" (tag_node link) = Some h
            ∧ Py.startswith "/wiki/" h = true
            ∧ Py.contains ":" h = false
            ∧ Py.contains "(identifier)" h = false)
  ∧ (∀ r, r ∈ rows (single_column "concepts" ["sake"]) →
          ∃ c, r = [Str c] ∧ Py.isalpha c = true ∧ 1 < Py.len c
               ∧ Py.lower c = c).
Proof.
  apply (extract_link_concepts_and_urls_output titled_links_body japan_url);
    vm_compute; reflexivity.
Defined.

(** X12: the loop over the anchors stops at the first anchor whose href
    equals that of the first anchor after the reference section; this
    anchor and all anchors behind it add nothing. *)
Theorem link_loop_cutoff (reference_section : option Tag)
    (before behind : list Tag) (cut : Tag) (urls concepts : list string) :
  at_cutoff reference_section (get "href" (tag_node cut)) = Ok true →
  link_loop reference_section (before ++ cut :: behind) urls concepts
  = link_loop reference_section before urls concepts.
Proof.
  intros Hcut. revert urls concepts.
  induction before as [|link before IH]; intros urls concepts; simpl.
  - by rewrite Hcut.
  - destruct (at_cutoff reference_section (get "href" (tag_node link)))
      as [[|]|]; simpl; [done| |done].
    destruct (internal_content_link _); [|apply IH].
    destruct (get "title" (tag_node link)); [apply IH|done].
Qed.

Lemma link_loop_cutoff_witness :
  link_loop (find_id "References" titled_links_body)
    (take 2 (find_all "a" titled_links_body)
     ++ default (BeautifulSoup []) (find_all "a" titled_links_body !! 2)
        :: drop 3 (find_all "a" titled_links_body)) [] []
  = link_loop (find_id "References" titled_links_body)
      (take 2 (find_all "a" titled_links_body)) [] [].
Proof.
  apply link_loop_cutoff. vm_compute. reflexivity.
Defined.

(** ** Captioned images *)

Lemma figure_scan_keeps (PERSON_DB : list cell) (figs : list Tag)
    (caps srcs caps' srcs' : list string) :
  figure_scan PERSON_DB figs caps srcs = Ok (caps', srcs') →
  length caps = length srcs →
  Forall (fun cap => dated_or_unnamed PERSON_DB cap = Ok true) caps →
  Forall (fun src => Py.endswith_any image_suffixes src = true) srcs →
  length caps' = length srcs'
  ∧ Forall (fun cap => dated_or_unnamed PERSON_DB cap = Ok true) caps'
  ∧ Forall (fun src => Py.endswith_any image_suffixes src = true) srcs'.
Proof.
  revert caps srcs. induction figs as [|fig figs IH]; intros caps srcs; simpl.
  - by intros [= <- <-].
  - destruct (find "img" fig) as [img|]; [|apply IH].
    destruct (find "figcaption" fig) as [figcaption|]; [|discriminate].
    destruct (dated_or_unnamed PERSON_DB
                (Py.lower (Py.strip (get_text (tag_node figcaption)))))
      as [[|]|] eqn:Hkeep; simpl; [|apply IH|discriminate].
    destruct (get "src" (tag_node img)) as [src|]; [|discriminate].
    match goal with
    | |- context [if ?b then _ else _] => destruct b eqn:Hsuffix
    end; [|apply IH].
    intros Hscan Hlen Hcaps Hsrcs.
    apply (IH _ _ Hscan).
    + rewrite !length_app. simpl. lia.
    + apply Forall_app. split; [done|]. by constructor.
    + apply Forall_app. split; [done|].
      constructor; [exact Hsuffix|constructor].
Qed.

Lemma image_scan_keeps (PERSON_DB : list cell) (imgs : list Tag)
    (caps srcs caps' srcs' : list string) :
  image_scan PERSON_DB imgs caps srcs = Ok (caps', srcs') →
  length caps = length srcs →
  Forall (fun cap => dated_or_unnamed PERSON_DB cap = Ok true) caps →
  Forall (fun src => Py.endswith_any image_suffixes src = true) srcs →
  length caps' = length srcs'
  ∧ Forall (fun cap => dated_or_unnamed PERSON_DB cap = Ok true) caps'
  ∧ Forall (fun src => Py.endswith_any image_suffixes src = true) srcs'.
Proof.
  revert caps srcs. induction imgs as [|img imgs IH]; intros caps srcs; simpl.
  - by intros [= <- <-].
  - destruct (get "src" (tag_node img)) as [img_src|]; [|discriminate].
    match goal with
    | |- context [if ?b then _ else _] => destruct b eqn:Hnew
    end; [|apply IH].
    apply andb_prop in Hnew as [_ Hsuffix].
    destruct (get "alt" (tag_node img)) as [alt|]; [|apply IH].
    case_bool_decide; [apply IH|].
    destruct (dated_or_unnamed PERSON_DB (Py.lower (Py.strip alt)))
      as [[|]|] eqn:Hkeep; simpl; [|apply IH|discriminate].
    intros Hscan Hlen Hcaps Hsrcs.
    apply (IH _ _ Hscan).
    + rewrite !length_app. simpl. lia.
    + apply Forall_app. split; [done|]. by constructor.
    + apply Forall_app. split; [done|].
      constructor; [exact Hsuffix|constructor].
Qed.

(** X13: when [get_captioned_images] returns, its table has the columns
    img_source and img_captions, and in every row the source ends in jpg,
    jpeg or gif and the caption carries a digit or matches no reference
    name. *)
Theorem get_captioned_images_rows (PERSON_DB : list cell)
    (soup_content : Tag) (page_images : DataFrame) :
  get_captioned_images PERSON_DB soup_content = Ok page_images →
  columns page_images = ["img_source"; "img_captions"]
  ∧ ∀ r, r ∈ rows page_images → image_row_ok PERSON_DB r.
Proof.
  unfold get_captioned_images.
  destruct (figure_scan PERSON_DB (find_all "figure" soup_content) [] [])
    as [[caps srcs]|] eqn:Hfig; [|discriminate].
  unfold mbind at 1, result_bind at 1.
  destruct (image_scan PERSON_DB (find_all "img" soup_content) caps srcs)
    as [[caps' srcs']|] eqn:Himg; [|discriminate].
  unfold mbind, result_bind, mret, result_ret. intros [= <-].
  split; [reflexivity|]. unfold two_columns. simpl.
  apply figure_scan_keeps in Hfig as (Hlen & Hcaps & Hsrcs);
    [|reflexivity|constructor|constructor].
  apply (image_scan_keeps _ _ _ _ _ _ Himg) in Hlen as (_ & Hcaps' & Hsrcs');
    [|done|done].
  intros r (src & cap & -> & Hsrc & Hcap)%elem_of_zip_with.
  exists src, cap. split; [reflexivity|]. split.
  - by apply (proj1 (Forall_forall _ _) Hsrcs').
  - by apply (proj1 (Forall_forall _ _) Hcaps').
Qed.

Lemma get_captioned_images_rows_witness :
  columns (two_columns "img_source" "img_captions"
             ["/img/leonardo-1500.jpg"; "/img/keg.gif"]
             ["leonardo da vinci in 1500"; "a keg"])
  = ["img_source"; "img_captions"]
  ∧ ∀ r, r ∈ rows (two_columns "img_source" "img_captions"
                     ["/img/leonardo-1500.jpg"; "/img/keg.gif"]
                     ["leonardo da vinci in 1500"; "a keg"]) →
         image_row_ok [Str "leonardo da vinci"] r.
Proof.
  apply (get_captioned_images_rows [Str "leonardo da vinci"] gallery_body).
  vm_compute. reflexivity.
Defined.

(** ** The crawl loop as a whole *)

Lemma bind_Ok {A B} (m : result A) (f : A → result B) (b : B) :
  m ≫= f = Ok b → ∃ a, m = Ok a ∧ f a = Ok b.
Proof. destruct m as [a|e]; simpl; [by exists a|discriminate]. Qed.

(** X14: a run of [n] iterations that ends normally has recorded exactly
    [n] more addresses, behind those recorded before. *)
Theorem crawl_loop_visited_count
    (requests_get : string → fetch_outcome)
    (page_concepts : Tag → option Tag → DataFrame → string → string
                     → result DataFrame)
    (load : store → string → result DataFrame) (PERSON_DB : list cell)
    (n : nat) (st st' : crawl_state) :
  crawl_loop requests_get page_concepts load PERSON_DB n st = Ok st' →
  visited_urls st `prefix_of` visited_urls st'
  ∧ length (visited_urls st') = length (visited_urls st) + n.
Proof.
  revert st. induction n as [|n IH]; intros st; simpl.
  - intros [= <-]. split; [done|lia].
  - intros (st1 & Hit & Hloop)%bind_Ok.
    destruct (IH st1 Hloop) as [Hpre Hlen].
    pose proof (crawl_iteration_visited _ _ _ _ _ _ Hit) as Hv.
    assert (Hhead : length (take 1 (next_urls st)) = 1).
    { unfold crawl_iteration in Hit.
      apply bind_Ok in Hit as ([response st0] & Hfetch & _).
      apply fetch_and_mark_ok in Hfetch as (url & Hurl & _).
      destruct (next_urls st); [discriminate|reflexivity]. }
    rewrite Hv in Hpre, Hlen. split.
    + etransitivity; [|exact Hpre]. by apply prefix_app_r.
    + rewrite Hlen, length_app, Hhead. lia.
Qed.

Lemma crawl_loop_visited_count_witness :
  visited_urls (start_at [PStr sake_url; PStr sake_url; PStr sake_url])
    `prefix_of` visited_urls (mkState [PStr sake_url]
                                [PStr sake_url; PStr sake_url] ∅)
  ∧ length (visited_urls (mkState [PStr sake_url]
                            [PStr sake_url; PStr sake_url] ∅))
    = length (visited_urls
                (start_at [PStr sake_url; PStr sake_url; PStr sake_url])) + 2.
Proof.
  apply (crawl_loop_visited_count all_missing no_concepts read_csv_file []).
  vm_compute. reflexivity.
Defined.

Lemma crawl_iteration_queue
    (requests_get : string → fetch_outcome)
    (page_concepts : Tag → option Tag → DataFrame → string → string
                     → result DataFrame)
    (PERSON_DB : list cell) (st st' : crawl_state) :
  crawl_iteration requests_get page_concepts read_csv_file PERSON_DB st
  = Ok st' →
  next_urls st' ≠ [] ∧ length (next_urls st') ≤ length (next_urls st).
Proof.
  unfold crawl_iteration.
  intros ([response st1] & Hfetch & (st2 & Hproc & Hadv)%bind_Ok)%bind_Ok.
  apply fetch_and_mark_ok in Hfetch as (url & Hurl & _ & ->).
  apply process_response_ok in Hproc as [_ Hqueue]. simpl in Hqueue.
  unfold advance in Hadv.
  destruct (drop 1 (next_urls st2)) as [|u rest] eqn:Hdrop; [discriminate|].
  injection Hadv as <-. simpl. split; [done|].
  assert (Hlen : length (next_urls st2) ≤ length (next_urls st) + 1).
  { destruct Hqueue as [-> | (soup & culture & ->)]; [lia|].
    destruct (append_multilingual_url_cases soup culture (next_urls st)
                (visited_urls st ++ [url])) as [-> | (x & _ & ->)]; [lia|].
    rewrite length_app. simpl. lia. }
  apply (f_equal length) in Hdrop. rewrite length_drop in Hdrop.
  simpl in Hdrop. lia.
Qed.

(** X15: with the refill as it is written (it raises at
    [pd.read_csv_file]), the queue is never refilled: a run of one or more
    iterations that ends normally leaves a queue that is not empty and no
    longer than the queue it started with. *)
Theorem crawl_loop_queue_never_refilled
    (requests_get : string → fetch_outcome)
    (page_concepts : Tag → option Tag → DataFrame → string → string
                     → result DataFrame)
    (PERSON_DB : list cell) (n : nat) (st st' : crawl_state) :
  crawl_loop requests_get page_concepts read_csv_file PERSON_DB n st
  = Ok st' →
  0 < n →
  next_urls st' ≠ [] ∧ length (next_urls st') ≤ length (next_urls st).
Proof.
  revert st. induction n as [|n IH]; intros st; simpl; [lia|].
  intros (st1 & Hit & Hloop)%bind_Ok _.
  apply crawl_iteration_queue in Hit as [Hne Hlen].
  destruct n as [|n].
  - simpl in Hloop. injection Hloop as <-. done.
  - destruct (IH st1 Hloop) as [Hne' Hlen']; [lia|]. split; [done|lia].
Qed.

Lemma crawl_loop_queue_never_refilled_witness :
  next_urls (mkState [PStr sake_url] [PStr sake_url; PStr sake_url] ∅) ≠ []
  ∧ length (next_urls (mkState [PStr sake_url]
                         [PStr sake_url; PStr sake_url] ∅))
    ≤ length (next_urls
                (start_at [PStr sake_url; PStr sake_url; PStr sake_url])).
Proof.
  apply (crawl_loop_queue_never_refilled all_missing no_concepts [] 2);
    [vm_compute; reflexivity|lia].
Defined.

(** *** Files *)

Lemma overwrite_file_others (filename : string) (new_contents : contents)
    (file_type : string) (fs fs' : store) :
  overwrite_file filename new_contents file_type fs = Ok fs' →
  (∀ path, path ≠ filename → fs' !! path = fs !! path)
  ∧ (∀ path, is_Some (fs !! path) → is_Some (fs' !! path)).
Proof.
  unfold overwrite_file. case_bool_decide; [|discriminate].
  destruct new_contents as [l|new_df]; [discriminate|].
  intros (old & _ & [= <-])%bind_Ok. unfold to_csv. split.
  - intros path Hne. by apply lookup_insert_ne.
  - intros path Hsome. destruct (decide (path = filename)) as [-> | Hne].
    + rewrite lookup_insert_eq. by eexists.
    + by rewrite lookup_insert_ne.
Qed.

Lemma extract_and_persist_files
    (page_concepts : Tag → option Tag → DataFrame → string → string
                     → result DataFrame)
    (PERSON_DB : list cell) (soup : Tag) (soup_content : option Tag)
    (culture field : string) (st : crawl_state) (fs : store) :
  extract_and_persist page_concepts PERSON_DB soup soup_content culture field st
  = Ok fs →
  (∀ path, path ∉ crawl_outputs → fs !! path = files st !! path)
  ∧ (∀ path, is_Some (files st !! path) → is_Some (fs !! path)).
Proof.
  unfold extract_and_persist.
  intros (body & _ & (page_images & _ & Hrest)%bind_Ok)%bind_Ok.
  apply bind_Ok in Hrest as (fs1 & [H1 S1]%overwrite_file_others & Hrest).
  apply bind_Ok in Hrest as (current & _ & Hrest).
  apply bind_Ok in Hrest as (current_url & _ & Hrest).
  apply bind_Ok in Hrest as ([outgoing_links url_concepts] & _ & Hrest).
  apply bind_Ok in Hrest as (fs2 & [H2 S2]%overwrite_file_others & Hrest).
  apply bind_Ok in Hrest as (concepts & _ & [H3 S3]%overwrite_file_others).
  split.
  - intros path Hpath. unfold crawl_outputs in Hpath.
    rewrite !not_elem_of_cons in Hpath. destruct Hpath as (? & ? & ? & _).
    by rewrite H3, H2, H1.
  - intros path Hsome. by apply S3, S2, S1.
Qed.

Lemma crawl_iteration_files
    (requests_get : string → fetch_outcome)
    (page_concepts : Tag → option Tag → DataFrame → string → string
                     → result DataFrame)
    (load : store → string → result DataFrame) (PERSON_DB : list cell)
    (st st' : crawl_state) :
  crawl_iteration requests_get page_concepts load PERSON_DB st = Ok st' →
  (∀ path, path ∉ crawl_outputs → files st' !! path = files st !! path)
  ∧ (∀ path, is_Some (files st !! path) → is_Some (files st' !! path)).
Proof.
  unfold crawl_iteration.
  intros ([response st1] & Hfetch & (st2 & Hproc & Hadv)%bind_Ok)%bind_Ok.
  apply fetch_and_mark_ok in Hfetch as (url & _ & _ & ->).
  assert (Hproc' :
    (∀ path, path ∉ crawl_outputs → files st2 !! path = files st !! path)
    ∧ (∀ path, is_Some (files st !! path) → is_Some (files st2 !! path))).
  { unfold process_response in Hproc.
    destruct (response_ok response); [|by injection Hproc as <-].
    apply bind_Ok in Hproc
      as ([[[soup soup_content] culture] field] & _ & Hproc).
    apply bind_Ok in Hproc as (fs & Hfs & [= <-]).
    apply extract_and_persist_files in Hfs. exact Hfs. }
  destruct Hproc' as [H2 S2].
  unfold advance in Hadv.
  destruct (drop 1 (next_urls st2)) as [|u rest];
    [|injection Hadv as <-; by split].
  apply bind_Ok in Hadv as ([next fs] & Hsel & [= <-]). simpl.
  unfold select_next_urls_with in Hsel.
  apply bind_Ok in Hsel as (url_df & _ & Hsel).
  apply bind_Ok in Hsel as (urls & _ & Hsel).
  apply bind_Ok in Hsel as (next' & _ & [= _ <-]).
  unfold to_csv. split.
  - intros path Hpath. rewrite <- (H2 path Hpath).
    apply lookup_insert_ne. intros <-. apply Hpath.
    unfold crawl_outputs. set_solver.
  - intros path Hsome%S2.
    destruct (decide (path = ALL_URLS_FILE)) as [-> | Hne].
    + rewrite lookup_insert_eq. by eexists.
    + by rewrite lookup_insert_ne.
Qed.

(** X16: the crawl loop writes to its three output files only.  After a
    run that ends normally, whatever the loader used by the refill, every
    other path of the working directory holds what it held before, and
    every file that was there is still there. *)
Theorem crawl_loop_files
    (requests_get : string → fetch_outcome)
    (page_concepts : Tag → option Tag → DataFrame → string → string
                     → result DataFrame)
    (load : store → string → result DataFrame) (PERSON_DB : list cell)
    (n : nat) (st st' : crawl_state) :
  crawl_loop requests_get page_concepts load PERSON_DB n st = Ok st' →
  (∀ path, path ∉ crawl_outputs → files st' !! path = files st !! path)
  ∧ (∀ path, is_Some (files st !! path) → is_Some (files st' !! path)).
Proof.
  revert st. induction n as [|n IH]; intros st; simpl.
  - by intros [= <-].
  - intros (st1 & [H1 S1]%crawl_iteration_files & [H2 S2]%IH)%bind_Ok. split.
    + intros path Hpath. by rewrite H2, H1.
    + intros path Hsome. by apply S2, S1.
Qed.

Lemma crawl_loop_files_witness :
  (∀ path, path ∉ crawl_outputs →
           files beer_run_end !! path = files beer_run_start !! path)
  ∧ (∀ path, is_Some (files beer_run_start !! path) →
             is_Some (files beer_run_end !! path)).
Proof.
  apply (crawl_loop_files (serving beer_page) no_concepts read_csv [] 1).
  vm_compute. reflexivity.
Defined.

(** ** The start of a run *)

(** X17: the start of a run needs the seeds file with a column urls.
    Over a well-formed seeds file that holds text, and with a shuffle
    that rearranges its list, the queue is a rearrangement of the first
    200 values of the column urls (all of them when there are fewer),
    nothing is visited, and the overflow table is replaced by an empty one
    with the header of the seeds file, whatever that table held; no other
    file is changed. *)
Theorem initial_state_resets_overflow (shuffle : list pyval → list pyval)
    (fs : store) (st : crawl_state) :
  initial_state shuffle fs = Ok st →
  text_table fs START_URLS_FILE = true →
  (∀ l, shuffle l ≡ₚ l) →
  ∃ f urls,
    fs !! START_URLS_FILE = Some f
    ∧ "urls" ∈ header f
    ∧ column "urls" (parse_csv f) = Ok urls
    ∧ next_urls st ≡ₚ map of_cell (take 200 urls)
    ∧ visited_urls st = []
    ∧ files st = <[ALL_URLS_FILE := mkCsv (header f) []]> fs.
Proof.
  unfold initial_state, read_csv. intros Hst _ Hshuffle. revert Hst.
  destruct (fs !! START_URLS_FILE) as [f|]; [|discriminate].
  intros (df & [= <-] & (urls & Hurls & [= <-])%bind_Ok)%bind_Ok.
  exists f, urls. split; [reflexivity|]. split.
  { unfold column in Hurls. simpl in Hurls.
    destruct (col_index "urls" (header f)) as [i|] eqn:Hi; [|discriminate].
    eapply list_elem_of_lookup_2, col_index_lookup, Hi. }
  split; [exact Hurls|]. split; [apply Hshuffle|by split].
Qed.

Lemma initial_state_resets_overflow_witness :
  ∃ f urls,
    one_seed_store !! START_URLS_FILE = Some f
    ∧ "urls" ∈ header f
    ∧ column "urls" (parse_csv f) = Ok urls
    ∧ next_urls (mkState [PStr sake_url] []
                   (<[ALL_URLS_FILE := mkCsv ["urls"] []]> one_seed_store))
      ≡ₚ map of_cell (take 200 urls)
    ∧ visited_urls (mkState [PStr sake_url] []
                      (<[ALL_URLS_FILE := mkCsv ["urls"] []]> one_seed_store))
      = []
    ∧ files (mkState [PStr sake_url] []
               (<[ALL_URLS_FILE := mkCsv ["urls"] []]> one_seed_store))
      = <[ALL_URLS_FILE := mkCsv (header f) []]> one_seed_store.
Proof.
  apply (initial_state_resets_overflow keep_order one_seed_store);
    [vm_compute; reflexivity|vm_compute; reflexivity|].
  intros l. reflexivity.
Defined.

(** ** The filter stage *)

Lemma keep_unnamed_spec (PERSON_DB : list cell) (cols : list string)
    (rs kept : list (list cell)) :
  ConceptFiltering.keep_unnamed PERSON_DB cols rs = Ok kept →
  kept `sublist_of` rs
  ∧ (∀ r, r ∈ kept →
          ConceptFiltering.contains_person_name PERSON_DB (concept_of cols r)
          = Ok false)
  ∧ (∀ r, r ∈ rs → r ∉ kept →
          ConceptFiltering.contains_person_name PERSON_DB (concept_of cols r)
          = Ok true).
Proof.
  revert kept. induction rs as [|r rs IH]; intros kept; simpl.
  - intros [= <-]. split; [done|]. split; intros r Hr; by apply elem_of_nil in Hr.
  - intros ([|] & Hnamed & (kept' & Hkept & [= <-])%bind_Ok)%bind_Ok;
      destruct (IH kept' Hkept) as (Hsub & Hin & Hout).
    + split; [by apply sublist_cons|]. split; [exact Hin|].
      intros r' [-> | Hr']%elem_of_cons Hnot; [exact Hnamed|by apply Hout].
    + split; [by apply sublist_skip|]. split.
      * intros r' [-> | Hr']%elem_of_cons; [exact Hnamed|by apply Hin].
      * intros r' [-> | Hr']%elem_of_cons Hnot.
        -- destruct Hnot. by left.
        -- apply Hout; [done|]. intros ?. apply Hnot. by right.
Qed.

(** X18: when [remove_people_and_locations_from_concepts] of the filter
    stage returns, the table has a column concepts, the rows kept are a
    sub-sequence of the rows given, every row kept has a concept that
    shares no word with a reference name, and every row dropped has one
    that does.  Place names are not tested. *)
Theorem remove_people_rows (PERSON_DB : list cell)
    (concepts filtered : DataFrame) :
  ConceptFiltering.remove_people_and_locations_from_concepts PERSON_DB concepts
  = Ok filtered →
  "concepts" ∈ columns concepts
  ∧ rows filtered `sublist_of` rows concepts
  ∧ (∀ r, r ∈ rows filtered →
          ConceptFiltering.contains_person_name PERSON_DB
            (concept_of (columns concepts) r) = Ok false)
  ∧ (∀ r, r ∈ rows concepts → r ∉ rows filtered →
          ConceptFiltering.contains_person_name PERSON_DB
            (concept_of (columns concepts) r) = Ok true)
  ∧ (rows concepts ≠ [] → columns filtered = columns concepts).
Proof.
  unfold ConceptFiltering.remove_people_and_locations_from_concepts.
  intros (col & Hcol & (kept & Hkept & [= <-])%bind_Ok)%bind_Ok.
  split.
  { unfold column in Hcol.
    destruct (col_index "concepts" (columns concepts)) as [i|] eqn:Hi;
      [|discriminate].
    eapply list_elem_of_lookup_2, col_index_lookup, Hi. }
  apply keep_unnamed_spec in Hkept as (Hsub & Hin & Hout).
  unfold apply_mask. destruct (rows concepts) as [|r0 rs] eqn:Hrows; simpl.
  - split; [done|]. split; [intros r Hr; by apply elem_of_nil in Hr|].
    split; [intros r Hr; by apply elem_of_nil in Hr|done].
  - by repeat split.
Qed.

Lemma remove_people_rows_witness :
  "concepts" ∈ columns (parse_csv (mkCsv concept_schema
                          [["sakura"; "german"; "food"];
                           ["marie curie"; ""; ""]]))
  ∧ rows (parse_csv (mkCsv concept_schema [["sakura"; "german"; "food"]]))
    `sublist_of` rows (parse_csv (mkCsv concept_schema
                         [["sakura"; "german"; "food"];
                          ["marie curie"; ""; ""]]))
  ∧ (∀ r, r ∈ rows (parse_csv (mkCsv concept_schema
                      [["sakura"; "german"; "food"]])) →
          ConceptFiltering.contains_person_name [Str "marie curie"]
            (concept_of concept_schema r) = Ok false)
  ∧ (∀ r, r ∈ rows (parse_csv (mkCsv concept_schema
                      [["sakura"; "german"; "food"];
                       ["marie curie"; ""; ""]])) →
          r ∉ rows (parse_csv (mkCsv concept_schema
                      [["sakura"; "german"; "food"]])) →
          ConceptFiltering.contains_person_name [Str "marie curie"]
            (concept_of concept_schema r) = Ok true)
  ∧ (rows (parse_csv (mkCsv concept_schema
             [["sakura"; "german"; "food"]; ["marie curie"; ""; ""]])) ≠ [] →
     columns (parse_csv (mkCsv concept_schema [["sakura"; "german"; "food"]]))
     = concept_schema).
Proof.
  apply (remove_people_rows [Str "marie curie"]
           (parse_csv (mkCsv concept_schema
              [["sakura"; "german"; "food"]; ["marie curie"; ""; ""]]))
           (parse_csv (mkCsv concept_schema [["sakura"; "german"; "food"]]))).
  vm_compute. reflexivity.
Defined.

(** X19: the table of filtered concepts (lines 246 to 256 of the script)
    is a sub-sequence of the stored candidates in which no concept text
    stands twice and no concept shares a word with a reference name. *)
Theorem filtered_concepts_unique (fs : store) (filtered : DataFrame) :
  ConceptFiltering.filtered_concepts fs = Ok filtered →
  ∃ f PERSON_DB,
    fs !! ConceptFiltering.CONCEPT_FILE = Some f
    ∧ ConceptFiltering.get_data_from_db fs "data/name_db.csv" = Ok PERSON_DB
    ∧ rows filtered `sublist_of` rows (parse_csv f)
    ∧ NoDup (map (concept_of (header f)) (rows filtered))
    ∧ ∀ r, r ∈ rows filtered →
           ConceptFiltering.contains_person_name PERSON_DB
             (concept_of (header f) r) = Ok false.
Proof.
  unfold ConceptFiltering.filtered_concepts.
  intros (LOCATION_DB & _ & (PERSON_DB & Hdb & Hrest)%bind_Ok)%bind_Ok.
  apply bind_Ok in Hrest as (df & Hread & (col & _ & Hfilter)%bind_Ok).
  unfold read_csv in Hread.
  destruct (fs !! ConceptFiltering.CONCEPT_FILE) as [f|]; [|discriminate].
  injection Hread as <-. exists f, PERSON_DB.
  split; [reflexivity|]. split; [exact Hdb|].
  unfold ConceptFiltering.remove_people_and_locations_from_concepts in Hfilter.
  apply bind_Ok in Hfilter as (col' & _ & (kept & Hkept & [= <-])%bind_Ok).
  apply keep_unnamed_spec in Hkept as (Hkept & Hnamed & _).
  set (filtered := apply_mask (drop_duplicates ["concepts"] (parse_csv f)) kept).
  assert (Hmask : rows filtered `sublist_of` kept).
  { unfold filtered, apply_mask. destruct (rows _); [apply sublist_nil_l|done]. }
  assert (Hin : ∀ r, r ∈ rows filtered →
                     ConceptFiltering.contains_person_name PERSON_DB
                       (concept_of (header f) r) = Ok false).
  { intros r Hr. apply Hnamed. by eapply elem_of_sublist. }
  assert (Hsub : rows filtered
                 `sublist_of` rows (drop_duplicates ["concepts"] (parse_csv f)))
    by (by etransitivity).
  clearbody filtered. clear Hmask Hkept Hnamed. simpl in Hsub.
  set (key := fun r : list cell => map (row_get (header f) r) ["concepts"])
    in *.
  split; [|split; [|exact Hin]].
  - etransitivity; [exact Hsub|]. apply drop_dup_go_sublist.
  - apply (NoDup_fmap_1 (fun c : cell => [c])).
    change (NoDup (map (fun c : cell => [c])
                     (map (concept_of (header f)) (rows filtered)))).
    rewrite map_map.
    apply (sublist_NoDup _ (map key
             (drop_dup_go key [] (map (map parse_field) (lines f)))));
      [apply drop_dup_go_NoDup|].
    by apply (fmap_sublist key).
Qed.

Lemma filtered_concepts_unique_witness :
  ∃ f PERSON_DB,
    candidates_store !! ConceptFiltering.CONCEPT_FILE = Some f
    ∧ ConceptFiltering.get_data_from_db candidates_store "data/name_db.csv"
      = Ok PERSON_DB
    ∧ rows (parse_csv (mkCsv concept_schema
              [["sakura"; "german"; "food"]; ["mochi"; ""; "food"]]))
      `sublist_of` rows (parse_csv f)
    ∧ NoDup (map (concept_of (header f))
               (rows (parse_csv (mkCsv concept_schema
                        [["sakura"; "german"; "food"]; ["mochi"; ""; "food"]]))))
    ∧ ∀ r, r ∈ rows (parse_csv (mkCsv concept_schema
                       [["sakura"; "german"; "food"]; ["mochi"; ""; "food"]])) →
           ConceptFiltering.contains_person_name PERSON_DB
             (concept_of (header f) r) = Ok false.
Proof.
  apply (filtered_concepts_unique candidates_store).
  vm_compute. reflexivity.
Defined.

(** *** Preassigned concepts *)

Lemma separate_rows_spec (cols : list string) (rs : list (list cell)) :
  2 < length cols →
  ConceptFiltering.separate_rows cols rs
  = Ok (map (reindex cols cols) (List.filter is_double rs),
        map (reindex cols cols) (List.filter is_single rs),
        map (reindex cols cols) (List.filter is_noisy rs)).
Proof.
  intros Hcols. induction rs as [|r rs IH]; simpl; [reflexivity|].
  rewrite IH. clear IH.
  unfold ConceptFiltering.preassigned, ConceptFiltering.iloc.
  rewrite !bool_decide_eq_true_2 by lia.
  unfold is_double, is_single, is_noisy, culture_cell, field_cell.
  destruct (default NaN (r !! 1)) as [c|], (default NaN (r !! 2)) as [f|];
    simpl; repeat case_bool_decide; simpl; try reflexivity; congruence.
Qed.

(** X20: over a table with at least three columns
    [seperate_preassigned_concepts] never raises and writes three tables,
    each holding, in order, the rows of one kind: rows with a culture and
    a semantic field go to gold_eval.csv, rows with exactly one of them to
    candidates.csv, rows with neither to noisy_concepts.csv; a row whose
    culture is indian goes to none of them. *)
Theorem seperate_preassigned_concepts_tables (concepts : DataFrame)
    (fs : store) :
  2 < length (columns concepts) →
  ConceptFiltering.seperate_preassigned_concepts concepts fs
  = Ok (to_csv "output/noisy_concepts.csv" (rows_where is_noisy concepts)
          (to_csv "output/gold_eval.csv" (rows_where is_double concepts)
             (to_csv "output/candidates.csv" (rows_where is_single concepts)
                fs))).
Proof.
  intros Hcols. unfold ConceptFiltering.seperate_preassigned_concepts.
  by rewrite separate_rows_spec.
Qed.

Lemma seperate_preassigned_concepts_tables_witness :
  ConceptFiltering.seperate_preassigned_concepts preassigned_concepts ∅
  = Ok (to_csv "output/noisy_concepts.csv"
          (rows_where is_noisy preassigned_concepts)
          (to_csv "output/gold_eval.csv"
             (rows_where is_double preassigned_concepts)
             (to_csv "output/candidates.csv"
                (rows_where is_single preassigned_concepts) ∅))).
Proof.
  apply seperate_preassigned_concepts_tables. vm_compute. lia.
Defined.

(** *** Language assignment *)

Lemma canonical_language_spec (language name : string) :
  ConceptFiltering.canonical_language language = Some name →
  name ∈ ConceptFiltering.languages ∧ Py.contains language name = true.
Proof.
  unfold ConceptFiltering.canonical_language. intros Hfind.
  apply find_some in Hfind as [Hin Hsub]. split; [|exact Hsub].
  by apply list_elem_of_In.
Qed.

Lemma row_get_insert (cols : list string) (row : list cell) (c c' : string)
    (i : nat) (v : cell) :
  col_index c cols = Some i → length row = length cols →
  row_get cols (<[i := v]> row) c'
  = if bool_decide (c' = c) then v else row_get cols row c'.
Proof.
  intros Hi Hlen. unfold row_get. case_bool_decide as Hc.
  - subst c'. rewrite Hi, list_lookup_insert_eq; [done|].
    apply col_index_lookup, lookup_lt_Some in Hi. lia.
  - destruct (col_index c' cols) as [j|] eqn:Hj; [|done].
    rewrite list_lookup_insert_ne; [done|]. intros <-.
    apply col_index_lookup in Hi, Hj. congruence.
Qed.

Lemma assign_language_spec (cols : list string) (row row' : list cell)
    (is_gold : bool) :
  ConceptFiltering.assign_language cols row = Ok (is_gold, row') →
  length row = length cols →
  length row' = length cols
  ∧ if is_gold
    then row_get cols row' "country" ∈ map Str ConceptFiltering.cultures
         ∧ row_get cols row' "semantic_field"
           ∈ map Str ConceptFiltering.semantic_fields
         ∧ ∃ name,
             ConceptFiltering.canonical_language
               (cell_str (row_get cols row "language")) = Some name
             ∧ row_get cols row' "language" = Str name
    else row' = row.
Proof.
  unfold ConceptFiltering.assign_language, ConceptFiltering.row_item.
  intros Hrow Hlen.
  destruct (col_index "country" cols) as [ic|] eqn:Hic; [|discriminate].
  simpl in Hrow. case_bool_decide as Hcountry; [|by injection Hrow as <- <-].
  destruct (col_index "semantic_field" cols) as [il|] eqn:Hil; [|discriminate].
  simpl in Hrow. case_bool_decide as Hfield; [|by injection Hrow as <- <-].
  destruct (col_index "language" cols) as [i|] eqn:Hi; [|discriminate].
  simpl in Hrow.
  destruct (ConceptFiltering.canonical_language
              (cell_str (default NaN (row !! i)))) as [name|] eqn:Hname;
    injection Hrow as <- <-; [|done].
  split; [by rewrite length_insert|].
  rewrite !(row_get_insert cols row "language" _ i) by done. simpl.
  unfold row_get. rewrite Hic, Hil, Hi.
  split; [done|]. split; [done|]. by exists name.
Qed.

Lemma assign_languages_spec (cols : list string)
    (rs gold general : list (list cell)) :
  ConceptFiltering.assign_languages cols rs = Ok (gold, general) →
  (∀ r, r ∈ rs → length r = length cols) →
  length gold + length general = length rs
  ∧ general `sublist_of` rs
  ∧ ∀ r, r ∈ gold →
         row_get cols r "country" ∈ map Str ConceptFiltering.cultures
         ∧ row_get cols r "semantic_field"
           ∈ map Str ConceptFiltering.semantic_fields
         ∧ row_get cols r "language" ∈ map Str ConceptFiltering.languages.
Proof.
  revert gold general. induction rs as [|r rs IH]; intros gold general; simpl.
  - intros [= <- <-] _. split; [done|]. split; [done|].
    intros r Hr. by apply elem_of_nil in Hr.
  - intros ([is_gold row'] & Hone & ([gold' general'] & Hrest & Hret)%bind_Ok)
             %bind_Ok Hlen.
    apply assign_language_spec in Hone as [_ Hone]; [|apply Hlen; by left].
    destruct (IH gold' general' Hrest) as (Hcount & Hsub & Hgold);
      [intros r' Hr'; apply Hlen; by right|].
    destruct is_gold; injection Hret as <- <-; simpl.
    + split; [lia|]. split; [by apply sublist_cons|].
      intros r' [-> | Hr']%elem_of_cons; [|by apply Hgold].
      destruct Hone as (Hc & Hf & name & [Hname _]%canonical_language_spec & ->).
      split; [done|]. split; [done|].
      change (Str name ∈ Str <$> ConceptFiltering.languages).
      by apply list_elem_of_fmap_2.
    + subst row'. split; [lia|]. split; [by apply sublist_skip|done].
Qed.

Lemma find_first {A} (p : A → bool) (l : list A) :
  match List.find p l with
  | Some x =>
      existsb p l = true
      ∧ ∃ before after,
          l = before ++ x :: after ∧ p x = true
          ∧ ∀ n, n ∈ before → p n = false
  | None => existsb p l = false
  end.
Proof.
  induction l as [|y l IH]; simpl; [reflexivity|].
  destruct (p y) eqn:Hy; simpl.
  - split; [reflexivity|]. exists [], l. split; [reflexivity|].
    split; [exact Hy|]. intros n Hn. by apply elem_of_nil in Hn.
  - destruct (List.find p l) as [x|]; [|exact IH].
    destruct IH as (Hex & before & after & -> & Hx & Hbefore).
    split; [exact Hex|]. exists (y :: before), after.
    split; [reflexivity|]. split; [exact Hx|].
    intros n [-> | Hn]%elem_of_cons; [exact Hy|by apply Hbefore].
Qed.

(** One row of the loop: a gold row has its language replaced by the
    first name that holds it, any other row is kept as it is. *)
Lemma assign_language_exact (cols : list string) (ic il i : nat)
    (r : list cell) :
  col_index "country" cols = Some ic →
  col_index "semantic_field" cols = Some il →
  col_index "language" cols = Some i →
  if is_gold cols r
  then ∃ name,
         first_language (language_of cols r) name
         ∧ ConceptFiltering.assign_language cols r
           = Ok (true, <[i := Str name]> r)
  else ConceptFiltering.assign_language cols r = Ok (false, r).
Proof.
  intros Hic Hil Hi.
  unfold ConceptFiltering.assign_language, ConceptFiltering.row_item,
    is_gold, target_row, language_of, row_get.
  rewrite Hic, Hil, Hi.
  unfold mbind, result_bind, mret, result_ret. cbv beta iota.
  destruct (bool_decide (default NaN (r !! ic)
                         ∈ map Str ConceptFiltering.cultures));
    [|reflexivity].
  destruct (bool_decide (default NaN (r !! il)
                         ∈ map Str ConceptFiltering.semantic_fields));
    [|reflexivity].
  rewrite !andb_true_l.
  unfold ConceptFiltering.canonical_language.
  pose proof (find_first
                (fun name => Py.contains (cell_str (default NaN (r !! i))) name)
                ConceptFiltering.languages) as Hfind.
  destruct (List.find
              (fun name => Py.contains (cell_str (default NaN (r !! i))) name)
              ConceptFiltering.languages) as [name|].
  - destruct Hfind as (-> & Hname). by exists name.
  - by rewrite Hfind.
Qed.

(** The loop over the rows, as two filters. *)
Lemma assign_languages_exact (cols : list string) (ic il i : nat)
    (rs : list (list cell)) :
  col_index "country" cols = Some ic →
  col_index "semantic_field" cols = Some il →
  col_index "language" cols = Some i →
  ∃ gold,
    ConceptFiltering.assign_languages cols rs
    = Ok (gold, List.filter (fun r => negb (is_gold cols r)) rs)
    ∧ Forall2 (fun r0 r =>
                 ∃ name, first_language (language_of cols r0) name
                         ∧ r = <[i := Str name]> r0)
        (List.filter (is_gold cols) rs) gold.
Proof.
  intros Hic Hil Hi. induction rs as [|r rs IH].
  - exists []. split; [reflexivity|constructor].
  - destruct IH as (gold & Hrest & Hgold).
    pose proof (assign_language_exact cols ic il i r Hic Hil Hi) as Hone.
    cbn [List.filter ConceptFiltering.assign_languages].
    destruct (is_gold cols r).
    + destruct Hone as (name & Hname & ->). rewrite Hrest.
      eexists. split; [reflexivity|].
      constructor; [|exact Hgold]. by exists name.
    + rewrite Hone, Hrest. exists gold. by split.
Qed.

(** X21: over a table of ASCII text with distinct column names, among
    them country, semantic_field and language,
    [seperate_incorrect_gpt_assignments]
    never raises and writes gold_candidates.csv and general.csv and
    nothing else.  The gold table holds, in order, the rows of the
    lower-cased table whose country is among germany, south korea, china,
    spain, whose semantic field is among the twelve field names and whose
    language is a substring of one of german, korean, chinese, spanish,
    english, each with its language replaced by the first of these names
    that holds it; the general table holds the other rows of the
    lower-cased table, in order and unchanged. *)
Theorem seperate_incorrect_gpt_assignments_tables (concepts : DataFrame)
    (fs : store) :
  "country" ∈ columns concepts →
  "semantic_field" ∈ columns concepts →
  "language" ∈ columns concepts →
  NoDup (columns concepts) →
  frame_ascii concepts = true →
  ∃ gold i,
    ConceptFiltering.seperate_incorrect_gpt_assignments concepts fs
    = Ok (to_csv "output/general.csv"
            {| columns := columns concepts;
               rows := List.filter
                         (fun r => negb (is_gold (columns concepts) r))
                         (ConceptFiltering.lowered concepts) |}
            (to_csv "output/gold_candidates.csv"
               {| columns := columns concepts; rows := gold |} fs))
    ∧ col_index "language" (columns concepts) = Some i
    ∧ Forall2 (fun r0 r =>
                 ∃ name, first_language (language_of (columns concepts) r0) name
                         ∧ r = <[i := Str name]> r0)
        (List.filter (is_gold (columns concepts))
           (ConceptFiltering.lowered concepts)) gold
    ∧ ∀ r, r ∈ gold →
           row_get (columns concepts) r "country"
           ∈ map Str ConceptFiltering.cultures
           ∧ row_get (columns concepts) r "semantic_field"
             ∈ map Str ConceptFiltering.semantic_fields
           ∧ row_get (columns concepts) r "language"
             ∈ map Str ConceptFiltering.languages.
Proof.
  intros (ic & Hic & _)%col_index_elem (il & Hil & _)%col_index_elem
    (i & Hi & _)%col_index_elem _ _.
  destruct (assign_languages_exact (columns concepts) ic il i
              (ConceptFiltering.lowered concepts) Hic Hil Hi)
    as (gold & Hrows & Hgold).
  exists gold, i.
  unfold ConceptFiltering.seperate_incorrect_gpt_assignments.
  rewrite Hrows. simpl. split; [reflexivity|]. split; [exact Hi|].
  split; [exact Hgold|].
  apply assign_languages_spec in Hrows as (_ & _ & Hin); [exact Hin|].
  intros r Hr. unfold ConceptFiltering.lowered in Hr.
  apply list_elem_of_In, in_map_iff in Hr as (r0 & <- & _).
  unfold reindex. by rewrite !length_map.
Qed.

Lemma seperate_incorrect_gpt_assignments_tables_witness :
  ∃ gold i,
    ConceptFiltering.seperate_incorrect_gpt_assignments answers ∅
    = Ok (to_csv "output/general.csv"
            {| columns := columns answers;
               rows := List.filter
                         (fun r => negb (is_gold (columns answers) r))
                         (ConceptFiltering.lowered answers) |}
            (to_csv "output/gold_candidates.csv"
               {| columns := columns answers; rows := gold |} ∅))
    ∧ col_index "language" (columns answers) = Some i
    ∧ Forall2 (fun r0 r =>
                 ∃ name, first_language (language_of (columns answers) r0) name
                         ∧ r = <[i := Str name]> r0)
        (List.filter (is_gold (columns answers))
           (ConceptFiltering.lowered answers)) gold
    ∧ ∀ r, r ∈ gold →
           row_get (columns answers) r "country"
           ∈ map Str ConceptFiltering.cultures
           ∧ row_get (columns answers) r "semantic_field"
             ∈ map Str ConceptFiltering.semantic_fields
           ∧ row_get (columns answers) r "language"
             ∈ map Str ConceptFiltering.languages.
Proof.
  apply (seperate_incorrect_gpt_assignments_tables answers ∅);
    [apply (bool_decide_unpack _); vm_compute; exact I..|reflexivity].
Defined.

(** *** Result files *)

(** X22: [create_empty_csv] never touches a file that exists: every file
    of the working directory is kept as it is, the path given holds a file
    afterwards, and a second call changes nothing. *)
Theorem create_empty_csv_keeps (filepath : string) (fs : store) :
  (∀ path f, fs !! path = Some f →
             ConceptFiltering.create_empty_csv filepath fs !! path = Some f)
  ∧ is_Some (ConceptFiltering.create_empty_csv filepath fs !! filepath)
  ∧ ConceptFiltering.create_empty_csv filepath
      (ConceptFiltering.create_empty_csv filepath fs)
    = ConceptFiltering.create_empty_csv filepath fs.
Proof.
  unfold ConceptFiltering.create_empty_csv at 1 2 4 5.
  destruct (fs !! filepath) as [f0|] eqn:Hf.
  - split; [done|]. split; [by rewrite Hf|].
    unfold ConceptFiltering.create_empty_csv. by rewrite Hf.
  - unfold to_csv. split; [|split].
    + intros path f Hpath. rewrite lookup_insert_ne; [done|]. congruence.
    + rewrite lookup_insert_eq. by eexists.
    + unfold ConceptFiltering.create_empty_csv. by rewrite lookup_insert_eq.
Qed.

(** *** Cleaning the gold file *)

Lemma app_cons (c : ascii) (s t : string) :
  String c s +:+ t = String c (s +:+ t).
Proof. reflexivity. Qed.

Lemma app_empty (t : string) : "" +:+ t = t.
Proof. reflexivity. Qed.

Lemma lower_app (s t : string) :
  Py.lower (s +:+ t) = Py.lower s +:+ Py.lower t.
Proof.
  induction s as [|c s IH]; [reflexivity|].
  rewrite app_cons. simpl. by rewrite IH, app_cons.
Qed.

Lemma lower_len (s : string) : Py.len (Py.lower s) = Py.len s.
Proof.
  unfold Py.len. induction s as [|c s IH]; simpl; [reflexivity|]. by rewrite IH.
Qed.

Lemma take_app_len (s t : string) : Py.take (Py.len s) (s +:+ t) = s.
Proof.
  unfold Py.len. induction s as [|c s IH].
  - rewrite app_empty. simpl. by destruct t.
  - rewrite app_cons. simpl. by rewrite IH.
Qed.

Lemma len_app (s t : string) : Py.len (s +:+ t) = Py.len s + Py.len t.
Proof.
  unfold Py.len. induction s as [|c s IH]; [reflexivity|].
  rewrite app_cons. simpl. by rewrite IH.
Qed.

Lemma lower_LF : Py.lower_char ConceptFiltering.LF = ConceptFiltering.LF.
Proof. reflexivity. Qed.

(** X23: for a line of ASCII text of two or more characters that ends in
    a line feed, [cleanup_format] writes the line in lower case without
    the character that stands before the line feed, and, when the line
    starts with an opening brace, without its first ten characters as
    well. *)
Theorem clean_line_drops_last (body : string) (c : ascii) :
  is_ascii (body +:+ String c "") = true →
  ConceptFiltering.clean_line
    (body +:+ String c (String ConceptFiltering.LF ""))
  = Ok ((if Py.startswith "{" (Py.lower (body +:+ String c ""))
         then ConceptFiltering.drop_chars 10 (Py.lower body)
         else Py.lower body)
        +:+ String ConceptFiltering.LF "").
Proof.
  intros _.
  unfold ConceptFiltering.clean_line, ConceptFiltering.slice_to_end.
  assert (Hcut : Py.take
            (Py.len (Py.lower (body +:+ String c (String ConceptFiltering.LF "")))
             - 2)
            (Py.lower (body +:+ String c (String ConceptFiltering.LF "")))
          = Py.lower body).
  { rewrite lower_len, len_app, lower_app.
    replace (Py.len body + Py.len (String c (String ConceptFiltering.LF "")) - 2)
      with (Py.len (Py.lower body))
      by (rewrite lower_len; unfold Py.len; simpl; lia).
    apply take_app_len. }
  rewrite Hcut.
  destruct body as [|b body]; rewrite ?app_empty, ?app_cons; simpl;
    rewrite andb_true_r;
    match goal with
    | |- context [bool_decide ("{"%char = ?x)] =>
        rewrite (bool_decide_ext ("{"%char = x) (x = "{"%char)) by done
    end;
    by case_bool_decide.
Qed.

Lemma clean_line_drops_last_witness :
  ConceptFiltering.clean_line
    ("concept,country,semantic_field,language"
     +:+ String ConceptFiltering.LF "")
  = Ok ("concept,country,semantic_field,languag"
        +:+ String ConceptFiltering.LF "").
Proof.
  refine (clean_line_drops_last "concept,country,semantic_field,languag" "e"
            _).
  reflexivity.
Defined.








(** *** A table without the column language *)






(** ** Pages without a heading or a body *)


